(* Verification of the SenseAI browser extension: the heuristic scoring
   engine (src/lib/simulation + src/lib/utils), the background worker's
   result cache, offline queue and signal collection.

   Modelling conventions.
   - JS numbers are binary64 values, represented by the rational (Q) they
     denote; every multiplication, division, and addition or subtraction of
     non-integers rounds its exact result with `fl` (round to nearest, ties
     to even).  Integer counts and sums that stay below 2^53, where binary64
     arithmetic is exact, are integers (Z).  Math.round(x) is floor(x + 1/2)
     and Math.floor is floor, both on the exact value.
   - Every ISO date string the code writes (timestamp, cachedAt, expiresAt,
     queuedAt, ...) is represented by its time value in milliseconds (Z):
     `new Date(iso)` of a string written by `toISOString` gives the value back.
   - Math.random() is a stream of draws; clock readings are explicit
     arguments, one per reading in the source.
   - chrome.storage calls are modelled as succeeding. *)

From Stdlib Require Import QArith Qround Qpower Lqa Lia Streams ZArith String Ascii Sorted DecimalString.
From stdpp Require Import base gmap strings list.

Open Scope Z_scope.

(* ------------------------------------------------------------------ *)
(** * Data model (src/types) *)

Record CookieInfo := mkCookieInfo {
  name : string;
  cookie_domain : string;
  secure : bool;
  httpOnly : bool
}.

Module CookieSignal.
Record t := mk {
  count : Z;
  thirdPartyCount : Z;
  cookies : list CookieInfo
}.
End CookieSignal.

Record TrackerSignal := mkTrackerSignal {
  detected : list string;
  blocked : Z;
  scripts : list string
}.

Inductive Risk := low | medium | high.

Record FingerprintSignal := mkFingerprintSignal {
  techniques : list string;
  risk : Risk
}.

Record HeaderSignal := mkHeaderSignal {
  present : list string;
  missing : list string;
  issues : list string
}.

Record SSLSignal := mkSSLSignal {
  valid : bool;
  issuer : option string;
  ssl_expiresAt : option Z;
  protocol : option string
}.

Record PageSignals := mkPageSignals {
  url : string;
  domain : string;
  timestamp : Z;
  cookies : CookieSignal.t;
  trackers : TrackerSignal;
  fingerprinting : FingerprintSignal;
  headers : HeaderSignal;
  ssl : SSLSignal
}.

Inductive Verdict := safe | warning | danger.

Module SignalScores.
Record t := mk {
  cookies : Z;
  trackers : Z;
  fingerprinting : Z;
  headers : Z;
  ssl : Z
}.
End SignalScores.

Inductive ExplanationStage := pending | generating | complete | failed.

Record ExplanationStatus := mkExplanationStatus {
  status : ExplanationStage;
  text : option string;
  generatedAt : option Z;
  error : option string
}.

Record AnalysisResult := mkAnalysisResult {
  id : string;
  res_url : string;
  res_domain : string;
  trustScore : Z;
  verdict : Verdict;
  signalScores : SignalScores.t;
  signals : PageSignals;
  analyzedAt : Z;
  explanation : option ExplanationStatus
}.

(* ------------------------------------------------------------------ *)
(** * JS helpers *)

(** Math.round: nearest integer, ties towards +infinity. *)
Definition js_round (x : Q) : Z := Qfloor (x + (1 # 2)).

(** Math.min(100, Math.max(0, x)). *)
Definition clamp100 (x : Z) : Z := Z.min 100 (Z.max 0 x).

(** A JS string is truthy when it is defined and not empty. *)
Definition str_truthy (o : option string) : bool :=
  match o with
  | Some s => negb (String.eqb s "")
  | None => false
  end.

(** s.startsWith(p) *)
Definition startsWith (s p : string) : bool := String.prefix p s.

(** s.includes(p) *)
Fixpoint includes (s p : string) : bool :=
  String.prefix p s ||
  match s with
  | EmptyString => false
  | String _ s' => includes s' p
  end.

(** s.endsWith(p) *)
Definition endsWith (s p : string) : bool :=
  (String.length p <=? String.length s)%nat &&
  String.eqb (String.substring (String.length s - String.length p)
                               (String.length p) s) p.

(** s.replace(pat, rep) with a string pattern: first occurrence only. *)
Fixpoint replace_first (pat rep s : string) : string :=
  if String.prefix pat s
  then (rep ++ String.substring (String.length pat)
                  (String.length s - String.length pat) s)%string
  else match s with
       | EmptyString => EmptyString
       | String c s' => String c (replace_first pat rep s')
       end.

(** toLowerCase on ASCII text. *)
Definition lower_ascii (c : ascii) : ascii :=
  let n := nat_of_ascii c in
  if (65 <=? n)%nat && (n <=? 90)%nat then ascii_of_nat (n + 32) else c.

Fixpoint toLowerCase (s : string) : string :=
  match s with
  | EmptyString => EmptyString
  | String c s' => String (lower_ascii c) (toLowerCase s')
  end.

(** arr.slice(0, n) *)
Definition slice0 {A} (l : list A) (n : Z) : list A :=
  if n <? 0 then firstn (Z.to_nat (Z.of_nat (length l) + n)) l
  else firstn (Z.to_nat n) l.

(** arr[i]: undefined out of range. *)
Definition js_index {A} (l : list A) (i : Z) : option A :=
  if i <? 0 then None else nth_error l (Z.to_nat i).

(* ------------------------------------------------------------------ *)
(** * IEEE 754 binary64 rounding *)

(** A binary64 operation returns its exact result rounded to the nearest
    binary64 value, ties to even: 53-bit significands, subnormals down to
    2^-1074.  Overflow to infinity is not modelled; no value computed here
    comes near 2^1024. *)

Definition pow2 (e : Z) : Q := Qpower 2 e.

(** Nearest integer, ties to even. *)
Definition round_ne (q : Q) : Z :=
  let f := Qfloor q in
  match Qcompare (q - inject_Z f) (1 # 2) with
  | Lt => f
  | Gt => f + 1
  | Eq => if Z.even f then f else f + 1
  end.

(** floor(log2 x) for x > 0. *)
Definition ilog2 (x : Q) : Z :=
  let e0 := Z.log2 (Qnum x) - Z.log2 (Zpos (Qden x)) in
  if Qle_bool (pow2 e0) x then e0 else e0 - 1.

(** Exponent of the last significand bit of a binary64 value of the
    magnitude of x (normal or subnormal). *)
Definition ulp_exp (x : Q) : Z := Z.max (ilog2 x - 52) (-1074).

Definition round_pos (x : Q) : Q :=
  inject_Z (round_ne (x / pow2 (ulp_exp x))) * pow2 (ulp_exp x).

(** The binary64 value nearest to x. *)
Definition fl (x : Q) : Q :=
  match Qcompare x 0 with
  | Eq => 0
  | Gt => round_pos x
  | Lt => - round_pos (- x)
  end.

(* ------------------------------------------------------------------ *)
(** * Scoring engine (simulation.ts: calculateSignalScores) *)

Definition requiredHeaders : list string :=
  ["Content-Security-Policy"; "X-Frame-Options"; "X-Content-Type-Options";
   "Strict-Transport-Security"]%string.

Definition trustedCAs : list string :=
  ["DigiCert"; "Let's Encrypt"; "Comodo"; "GlobalSign"; "GeoTrust"]%string.

Definition riskPenalty (r : Risk) : Z :=
  match r with low => 0 | medium => 20 | high => 40 end.

(** The literals 1.2 and 0.6 are the binary64 values nearest to 6/5 and 3/5. *)
Definition baseMultiplier (isTrusted isSuspicious : bool) : Q :=
  if isTrusted then fl (6 # 5) else if isSuspicious then fl (3 # 5) else 1.

Definition cookieScore (c : CookieSignal.t) : Z :=
  if 0 <? CookieSignal.count c then
    let thirdPartyRatio :=
      fl (inject_Z (CookieSignal.thirdPartyCount c) / inject_Z (CookieSignal.count c)) in
    let s1 := 85 - js_round (fl (thirdPartyRatio * 30)) in
    let secureCount :=
      Z.of_nat (length (List.filter (fun ck => secure ck && httpOnly ck)
                                (CookieSignal.cookies c))) in
    let secureRatio :=
      fl (inject_Z secureCount / inject_Z (Z.max (CookieSignal.count c) 1)) in
    s1 + js_round (fl (secureRatio * 15))
  else 85.

Definition trackerScore (t : TrackerSignal) : Z :=
  Z.max 40 (90 - Z.of_nat (length (detected t)) * 5).

Definition fingerprintScore (f : FingerprintSignal) : Z :=
  95 - riskPenalty (risk f) - Z.of_nat (length (techniques f)) * 5.

Definition headerScore (h : HeaderSignal) : Q :=
  let presentRequired :=
    Z.of_nat (length (List.filter (fun x => existsb (String.eqb x) requiredHeaders)
                             (present h))) in
  let h1 :=
    fl (80 + fl (fl (inject_Z presentRequired / inject_Z (Z.of_nat (length requiredHeaders))) * 20)) in
  let h2 := fl (h1 - inject_Z (Z.of_nat (length (missing h)) * 5)) in
  fl (h2 - inject_Z (Z.of_nat (length (issues h)) * 10)).

Definition sslScore (s : SSLSignal) : Z :=
  let base := if valid s then 100 else 30 in
  if valid s && str_truthy (issuer s) then
    match issuer s with
    | Some iss => if existsb (fun ca => includes iss ca) trustedCAs then 100 else base
    | None => base
    end
  else base.

Definition calculateSignalScores (signals : PageSignals)
    (isTrusted isSuspicious : bool) : SignalScores.t :=
  let m := baseMultiplier isTrusted isSuspicious in
  {| SignalScores.cookies :=
       clamp100 (js_round (fl (inject_Z (cookieScore (cookies signals)) * m)));
     SignalScores.trackers :=
       clamp100 (js_round (fl (inject_Z (trackerScore (trackers signals)) * m)));
     SignalScores.fingerprinting :=
       clamp100 (js_round (fl (inject_Z (fingerprintScore (fingerprinting signals)) * m)));
     SignalScores.headers :=
       clamp100 (js_round (fl (headerScore (headers signals) * m)));
     SignalScores.ssl := clamp100 (js_round (inject_Z (sslScore (ssl signals)))) |}.

(** The weighted sum and Math.round of simulateAnalysis: five binary64
    products by the weight literals, added from left to right. *)
Definition aggregateTrustScore (s : SignalScores.t) : Z :=
  let term (v : Z) (w : Q) := fl (inject_Z v * fl w) in
  js_round
    (fl (fl (fl (fl (term (SignalScores.ssl s) (25 # 100)
                     + term (SignalScores.headers s) (20 # 100))
                 + term (SignalScores.cookies s) (20 # 100))
             + term (SignalScores.trackers s) (20 # 100))
         + term (SignalScores.fingerprinting s) (15 # 100))).

(* ------------------------------------------------------------------ *)
(** * utils.ts: getVerdictFromScore, getScoreColor *)

Definition getVerdictFromScore (score : Q) : Verdict :=
  if Qle_bool 70 score then safe
  else if Qle_bool 40 score then warning
  else danger.

Record ScoreColor := mkScoreColor { color : string; label : string }.

Definition getScoreColor (score : Q) : ScoreColor :=
  if Qle_bool 70 score then mkScoreColor "hsl(152, 76%, 40%)" "Safe"
  else if Qle_bool 40 score then mkScoreColor "hsl(38, 92%, 50%)" "Caution"
  else mkScoreColor "hsl(0, 84%, 60%)" "Risk".

(* ------------------------------------------------------------------ *)
(** * simulation.ts: reputation, enhanceSignals, simulateAnalysis *)

Definition TRUSTED_DOMAINS : list string :=
  ["google.com"; "www.google.com";
   "github.com"; "www.github.com";
   "stackoverflow.com"; "www.stackoverflow.com";
   "amazon.com"; "www.amazon.com";
   "microsoft.com"; "www.microsoft.com";
   "apple.com"; "www.apple.com";
   "facebook.com"; "www.facebook.com";
   "twitter.com"; "www.twitter.com"; "x.com";
   "linkedin.com"; "www.linkedin.com";
   "youtube.com"; "www.youtube.com";
   "netflix.com"; "www.netflix.com";
   "reddit.com"; "www.reddit.com";
   "wikipedia.org"; "en.wikipedia.org";
   "medium.com"; "www.medium.com";
   "vercel.app"; "vercel.com";
   "netlify.app"; "netlify.com";
   "cloudflare.com"; "www.cloudflare.com"]%string.

Definition SUSPICIOUS_PATTERNS : list string :=
  ["free"; "prize"; "winner"; "click"; "urgent";
   "download"; "crack"; "keygen"; "warez";
   "casino"; "bet"; "lottery";
   ".xyz"; ".top"; ".click"; ".loan"; ".work"]%string.

Definition COMMON_TRACKERS : list string :=
  ["Google Analytics"; "Facebook Pixel"; "Google Tag Manager"; "Hotjar";
   "Mixpanel"; "Segment"; "Amplitude"; "Intercom"]%string.

Definition isTrustedDomain (domain : string) : bool :=
  existsb (fun td => String.eqb domain td ||
                     endsWith domain ("." ++ replace_first "www." "" td))
          TRUSTED_DOMAINS.

Definition isSuspiciousPage (domain url : string) : bool :=
  existsb (fun p => includes domain p || includes (toLowerCase url) p)
          SUSPICIOUS_PATTERNS.

(** Math.random() as a stream of draws (binary64 values in [0,1), see
    draws_in_unit). *)
Definition Rng := Stream Q.

Definition random (g : Rng) : Q * Rng := (Streams.hd g, Streams.tl g).

Definition risk_of_count (n : nat) : Risk :=
  match n with O => low | S O => medium | _ => high end.

(** enhanceSignals: backfills trackers, headers, fingerprinting and TLS
    details; `now` is the Date.now() reading of the TLS branch. *)
Definition enhanceSignals (g : Rng) (now : Z) (s : PageSignals) (isTrusted : bool)
    : PageSignals * Rng :=
  (* trackers *)
  let '(tr, g) :=
    match detected (trackers s) with
    | [] =>
        let '(r, g) := random g in
        let numTrackers :=
          if isTrusted then Qfloor (fl (r * 3)) else Qfloor (fl (r * 5)) + 2 in
        (mkTrackerSignal (slice0 COMMON_TRACKERS numTrackers)
                         (blocked (trackers s)) (scripts (trackers s)), g)
    | _ => (trackers s, g)
    end in
  (* headers *)
  let hd_sig :=
    match present (headers s), missing (headers s) with
    | [], [] =>
        if isTrusted then
          mkHeaderSignal
            ["Content-Security-Policy"; "X-Frame-Options"; "X-Content-Type-Options";
             "Strict-Transport-Security"]%string
            ["Permissions-Policy"]%string []
        else
          mkHeaderSignal
            ["X-Content-Type-Options"]%string
            ["Content-Security-Policy"; "X-Frame-Options"; "Strict-Transport-Security";
             "Permissions-Policy"]%string
            ["Missing critical security headers"]%string
    | _, _ => headers s
    end in
  (* fingerprinting *)
  let '(fp, g) :=
    match techniques (fingerprinting s) with
    | [] =>
        let '(tq, g) :=
          if isTrusted then ([], g)
          else let '(r, g) := random g in
               (slice0 ["Canvas"; "WebGL"]%string (Qfloor (fl (r * 2)) + 1), g) in
        (mkFingerprintSignal tq (risk_of_count (length tq)), g)
    | _ => (fingerprinting s, g)
    end in
  (* TLS *)
  let '(sl, g) :=
    if valid (ssl s) && negb (str_truthy (issuer (ssl s))) then
      let issuers := ["Let's Encrypt"; "DigiCert Inc"; "GlobalSign"; "Comodo CA"]%string in
      let '(r, g) := random g in
      (mkSSLSignal (valid (ssl s))
                   (js_index issuers (Qfloor (fl (r * inject_Z (Z.of_nat (length issuers))))))
                   (Some (now + 1000 * 60 * 60 * 24 * 90))
                   (Some "TLS 1.3"%string), g)
    else (ssl s, g) in
  (mkPageSignals (url s) (domain s) (timestamp s) (cookies s) tr fp hd_sig sl, g).

(** simulateAnalysis.  The random draws of enhanceSignals come first,
    then generateId (its value is `newId`) and `new Date()` (`now2`). *)
Definition simulateAnalysis (g : Rng) (now1 : Z) (newId : string) (now2 : Z)
    (s : PageSignals) : AnalysisResult * Rng :=
  let d := toLowerCase (domain s) in
  let isTrusted := isTrustedDomain d in
  let isSuspicious := isSuspiciousPage d (url s) in
  let '(enhancedSignals, g) := enhanceSignals g now1 s isTrusted in
  let sc := calculateSignalScores enhancedSignals isTrusted isSuspicious in
  let ts := aggregateTrustScore sc in
  ({| id := newId;
      res_url := url s;
      res_domain := domain s;
      trustScore := ts;
      verdict := getVerdictFromScore (inject_Z ts);
      signalScores := sc;
      signals := enhancedSignals;
      analyzedAt := now2;
      explanation := Some (mkExplanationStatus pending None None None) |}, g).

Definition example_signals : PageSignals :=
  mkPageSignals "https://example.com/" "example.com" 0
    (CookieSignal.mk 0 0 []) (mkTrackerSignal [] 0 [])
    (mkFingerprintSignal [] low) (mkHeaderSignal [] [] [])
    (mkSSLSignal true None None None).


(* ------------------------------------------------------------------ *)
(** * Background worker: status, storage, cache (background/index.ts) *)

Inductive ConnectionStatus := connected | disconnected | connecting | offline.

Record ExtensionStatus := mkExtensionStatus {
  isAuthenticated : bool;
  connectionStatus : ConnectionStatus;
  pendingAnalyses : Z;
  offlineQueueSize : Z
}.

Record CachedAnalysis := mkCachedAnalysis {
  result : AnalysisResult;
  cachedAt : Z;
  expiresAt : Z
}.

Record OfflineQueueItem := mkOfflineQueueItem {
  item_id : string;
  item_signals : PageSignals;
  queuedAt : Z;
  retryCount : Z
}.

Record ExtensionSettings := mkExtensionSettings {
  autoAnalyze : bool;
  showNotifications : bool;
  cacheExpiration : Z;
  darkMode : string;
  dashboardUrl : string
}.

Definition DEFAULT_SETTINGS : ExtensionSettings :=
  mkExtensionSettings false true 24 "auto" "http://localhost:5173".

(** chrome.storage.local.  `cachedResults` holds the own properties of the
    stored object (onInstalled stores `{}` when the key is absent); an
    absent `offlineQueue` key reads as `[]`, which is how the code treats
    it. *)
Record LocalStore := mkLocalStore {
  cachedResults : gmap string CachedAnalysis;
  offlineQueue : list OfflineQueueItem;
  settings : option ExtensionSettings
}.

Definition with_cachedResults (st : LocalStore) (c : gmap string CachedAnalysis) : LocalStore :=
  mkLocalStore c (offlineQueue st) (settings st).

Definition with_offlineQueue (st : LocalStore) (q : list OfflineQueueItem) : LocalStore :=
  mkLocalStore (cachedResults st) q (settings st).

(** getSettings: `{ ...DEFAULT_SETTINGS, ...stored }` for a complete stored
    settings object (onInstalled stores DEFAULT_SETTINGS whole). *)
Definition getSettings (st : LocalStore) : ExtensionSettings :=
  match settings st with
  | Some s => s
  | None => DEFAULT_SETTINGS
  end.

(** Largest time value a JS Date accepts; `toISOString` on anything beyond
    throws RangeError ("Invalid time value"). *)
Definition maxTimeValue : Z := 8640000000000000.

Definition toISOString (t : Z) : option Z :=
  if Z.abs t <=? maxTimeValue then Some t else None.

(** The map read from storage is a plain object: a key it does not own is
    looked up on Object.prototype, whose members are functions, except
    `__proto__`, whose getter returns Object.prototype itself. *)
Definition objectPrototypeKeys : list string :=
  ["constructor"; "hasOwnProperty"; "isPrototypeOf"; "propertyIsEnumerable";
   "toLocaleString"; "toString"; "valueOf"; "__defineGetter__"; "__defineSetter__";
   "__lookupGetter__"; "__lookupSetter__"; "__proto__"]%string.

(** What `cached[domain]` reads: an own entry, or an inherited member
    (a function or Object.prototype; either is truthy and has neither
    `expiresAt` nor `result`). *)
Inductive CacheValue :=
| OwnEntry (c : CachedAnalysis)
| ProtoMember (name : string).

Definition js_get (m : gmap string CachedAnalysis) (k : string) : option CacheValue :=
  match m !! k with
  | Some c => Some (OwnEntry c)
  | None =>
      if existsb (String.eqb k) objectPrototypeKeys then Some (ProtoMember k) else None
  end.

(** `cached[domain] = v`: every inherited member but `__proto__` is a
    writable data property, so the assignment creates an own property.
    Without an own `__proto__` property, assigning `__proto__` runs the
    inherited setter, which replaces the object's prototype and adds no
    own property: nothing of it is serialised by chrome.storage. *)
Definition js_set (m : gmap string CachedAnalysis) (k : string) (v : CachedAnalysis)
    : gmap string CachedAnalysis :=
  match m !! k with
  | None => if String.eqb k "__proto__" then m else <[k := v]> m
  | Some _ => <[k := v]> m
  end.

(** setCachedResult: `clock1` is the `new Date()` of cachedAt, `clock2` the
    `Date.now()` of expiresAt.  A RangeError is caught and logged, leaving
    the store unchanged. *)
Definition setCachedResult (st : LocalStore) (clock1 clock2 : Z)
    (domain : string) (r : AnalysisResult) : LocalStore :=
  let expirationHours := cacheExpiration (getSettings st) in
  match toISOString clock1, toISOString (clock2 + expirationHours * 60 * 60 * 1000) with
  | Some c, Some e =>
      with_cachedResults st (js_set (cachedResults st) domain (mkCachedAnalysis r c e))
  | _, _ => st
  end.

(** getCachedResult: `now` is the `new Date()` of the expiry test.  An
    expired own entry is deleted and the map written back.  An inherited
    member has no `expiresAt`: `new Date(undefined)` is an Invalid Date,
    the comparison is false, and the member is returned. *)
Definition getCachedResult (st : LocalStore) (domain : string) (now : Z)
    : option CacheValue * LocalStore :=
  match js_get (cachedResults st) domain with
  | None => (None, st)
  | Some (OwnEntry cachedItem) =>
      if expiresAt cachedItem <? now
      then (None, with_cachedResults st (delete domain (cachedResults st)))
      else (Some (OwnEntry cachedItem), st)
  | Some (ProtoMember k) => (Some (ProtoMember k), st)
  end.

(* ------------------------------------------------------------------ *)
(** * Offline queue and status *)

Record BgState := mkBgState {
  local : LocalStore;
  extensionStatus : ExtensionStatus
}.

(** updateStatus({ offlineQueueSize: n }); the STATUS_UPDATE broadcast
    changes no state. *)
Definition updateStatus_offlineQueueSize (es : ExtensionStatus) (n : Z) : ExtensionStatus :=
  mkExtensionStatus (isAuthenticated es) (connectionStatus es) (pendingAnalyses es) n.

Definition getOfflineQueue (b : BgState) : list OfflineQueueItem := offlineQueue (local b).

(** addToOfflineQueue: `newId` is the value generateId() returns at this
    call and `now` the `new Date()` of queuedAt. *)
Definition addToOfflineQueue (b : BgState) (newId : string) (now : Z)
    (signals : PageSignals) : BgState :=
  let queue := getOfflineQueue b ++ [mkOfflineQueueItem newId signals now 0] in
  mkBgState (with_offlineQueue (local b) queue)
            (updateStatus_offlineQueueSize (extensionStatus b) (Z.of_nat (length queue))).

Definition removeFromOfflineQueue (b : BgState) (qid : string) : BgState :=
  let filtered := List.filter (fun it => negb (String.eqb (item_id it) qid)) (getOfflineQueue b) in
  mkBgState (with_offlineQueue (local b) filtered)
            (updateStatus_offlineQueueSize (extensionStatus b) (Z.of_nat (length filtered))).

Inductive QueueOp :=
| Enqueue (newId : string) (now : Z) (signals : PageSignals)
| Dequeue (qid : string).

Definition queue_step (b : BgState) (op : QueueOp) : BgState :=
  match op with
  | Enqueue i n s => addToOfflineQueue b i n s
  | Dequeue i => removeFromOfflineQueue b i
  end.

Definition run_queue_ops (b : BgState) (ops : list QueueOp) : BgState :=
  fold_left queue_step ops b.

(* ------------------------------------------------------------------ *)
(** * Signal collection (collectSignalsFromTab, SIGNALS_COLLECTED) *)

(** getDomainFromUrl: `try { return new URL(url).hostname } catch
    { return url }`.  The WHATWG URL parser is not modelled: it is the
    argument `url_hostname`, which gives `Some` hostname when the URL
    constructor accepts the string and `None` when it throws.  Statements
    about the code hold for every such parser. *)
Definition getDomainFromUrl (url_hostname : string -> option string) (u : string) : string :=
  match url_hostname u with
  | Some h => h
  | None => u
  end.

(** A hostname function for URLs of the shape scheme://host[:port][/?#...]
    (lower-cased host; no "://" counts as a throw), used by the examples
    only. *)
Fixpoint host_part (s : string) : string :=
  match s with
  | EmptyString => EmptyString
  | String c s' =>
      if existsb (Ascii.eqb c) (list_ascii_of_string "/?#:") then EmptyString
      else String (lower_ascii c) (host_part s')
  end.

Fixpoint after_scheme (s : string) : option string :=
  match s with
  | EmptyString => None
  | String _ s' =>
      if String.prefix "://" s
      then Some (String.substring 3 (String.length s - 3) s)
      else after_scheme s'
  end.

Definition example_url_hostname (u : string) : option string :=
  option_map host_part (after_scheme u).

(** The TLS-only bundle of the 10-second timeout; `now` is its `new Date()`. *)
Definition fallbackSignals (url_hostname : string -> option string) (u : string) (now : Z)
    : PageSignals :=
  mkPageSignals u (getDomainFromUrl url_hostname u) now
    (CookieSignal.mk 0 0 []) (mkTrackerSignal [] 0 [])
    (mkFingerprintSignal [] low) (mkHeaderSignal [] [] [])
    (mkSSLSignal (startsWith u "https://") None None None).

(** The promise returned by one collectSignalsFromTab call. *)
Inductive PromiseState :=
| PPending
| PFulfilled (s : PageSignals)
| PRejected (err : string).

(** `pendingSignalCollections` maps a tab id to the resolver of the call
    that registered it (named by its request number). *)
Record CollectState := mkCollectState {
  pendingSignalCollections : gmap Z nat;
  promises : gmap nat PromiseState
}.

(** resolve / reject: a settled promise ignores later calls. *)
Definition settle (rid : nat) (v : PromiseState) (ps : gmap nat PromiseState)
    : gmap nat PromiseState :=
  match ps !! rid with
  | Some PPending => <[rid := v]> ps
  | _ => ps
  end.

Inductive CollectEvent :=
| CollectStart (rid : nat) (tabId : Z) (u : string)
    (* collectSignalsFromTab: registers the resolver, sends COLLECT_SIGNALS, arms the timer *)
| SendFailed (rid : nat) (tabId : Z)
    (* the first tabs.sendMessage rejected: executeScript is started *)
| InjectFailed (rid : nat) (tabId : Z) (err : string)
| RetryFailed (rid : nat) (err : string)
    (* the second tabs.sendMessage rejected: `.catch(reject)` *)
| SignalsCollected (senderTab : option Z) (s : PageSignals)
| Timeout (rid : nat) (tabId : Z) (u : string) (now : Z).

Definition collect_step (url_hostname : string -> option string) (st : CollectState)
    (ev : CollectEvent) : CollectState :=
  let pend := pendingSignalCollections st in
  let ps := promises st in
  match ev with
  | CollectStart rid t _ => mkCollectState (<[t := rid]> pend) (<[rid := PPending]> ps)
  | SendFailed _ _ => st
  | InjectFailed rid t e => mkCollectState (delete t pend) (settle rid (PRejected e) ps)
  | RetryFailed rid e => mkCollectState pend (settle rid (PRejected e) ps)
  | SignalsCollected (Some t) s =>
      (* `if (tabId && pendingSignalCollections.has(tabId))` *)
      if negb (t =? 0) then
        match pend !! t with
        | Some r => mkCollectState (delete t pend) (settle r (PFulfilled s) ps)
        | None => st
        end
      else st
  | SignalsCollected None _ => st
  | Timeout rid t u now =>
      match pend !! t with
      | Some _ => mkCollectState (delete t pend) (settle rid (PFulfilled (fallbackSignals url_hostname u now)) ps)
      | None => st
      end
  end.

Definition run_collect (url_hostname : string -> option string) (st : CollectState)
    (evs : list CollectEvent) : CollectState :=
  fold_left (collect_step url_hostname) evs st.

Definition initCollectState : CollectState := mkCollectState ∅ ∅.

(** What the ANALYZE_PAGE handler sends back once the collection promise
    settles: analysis proceeds on a bundle, or `handleAsync` rejects and
    `sendResponse({ error: error.message })` is called. *)
Inductive AnalyzeResponse :=
| RespAnalyzing (s : PageSignals)
| RespError (msg : string).

Definition analyzeResponseAfterCollect (p : PromiseState) : option AnalyzeResponse :=
  match p with
  | PPending => None
  | PFulfilled s => Some (RespAnalyzing s)
  | PRejected e => Some (RespError e)
  end.

(** The popup's analyzePage: a response with `error` (or without a
    result) moves it to the 'error' view. *)
Inductive ViewState := view_analyzing | view_result | view_error.

Definition popupViewOnResponse (r : AnalyzeResponse) : ViewState :=
  match r with
  | RespAnalyzing _ => view_result
  | RespError _ => view_error
  end.

(* ------------------------------------------------------------------ *)
(** * utils.ts: truncate, isAnalyzableUrl, formatRelativeTime *)

(** str.slice(0, end) on a string. *)
Definition str_slice0 (s : string) (e : Z) : string :=
  let len := Z.of_nat (String.length s) in
  let e' := if e <? 0 then Z.max (len + e) 0 else Z.min e len in
  String.substring 0 (Z.to_nat e') s.

Definition truncate (text : string) (maxLength : Z) : string :=
  if Z.of_nat (String.length text) <=? maxLength then text
  else (str_slice0 text (maxLength - 3) ++ "...")%string.

Definition nonAnalyzableProtocols : list string :=
  ["chrome://"; "chrome-extension://"; "moz-extension://"; "edge://";
   "about:"; "file://"; "data:"; "javascript:"]%string.

Definition isAnalyzableUrl (u : string) : bool :=
  if String.eqb u "" then false
  else negb (existsb (fun p => startsWith u p) nonAnalyzableProtocols).

(** The value formatRelativeTime returns; `toLocaleDateString()` depends on
    the locale and is kept as the date it prints. *)
Inductive RelativeTime :=
| JustNow
| MinutesAgo (n : Z)
| HoursAgo (n : Z)
| DaysAgo (n : Z)
| LocaleDate (date : Z).

(** formatRelativeTime for a valid date string (time value `date`), read
    at clock `now`.  Math.floor of an integer quotient is Z.div: the time
    values are below 2^53 in magnitude, so the rounding of `diffMs / 1000`
    (and of the later quotients) never crosses an integer. *)
Definition formatRelativeTime (date now : Z) : RelativeTime :=
  let diffMs := now - date in
  let diffSecs := diffMs / 1000 in
  let diffMins := diffSecs / 60 in
  let diffHours := diffMins / 60 in
  let diffDays := diffHours / 24 in
  if diffSecs <? 60 then JustNow
  else if diffMins <? 60 then MinutesAgo diffMins
  else if diffHours <? 24 then HoursAgo diffHours
  else if diffDays <? 7 then DaysAgo diffDays
  else LocaleDate date.

(** Rank of a verdict, from 'danger' to 'safe'. *)
Definition verdict_rank (v : Verdict) : Z :=
  match v with danger => 0 | warning => 1 | safe => 2 end.

(* ------------------------------------------------------------------ *)
(** * simulation.ts: simulateExplanation *)

(** `${n}` for an integer. *)
Definition string_of_Z (z : Z) : string := NilZero.string_of_int (Z.to_int z).

(** arr.join(sep) *)
Definition js_join (sep : string) (l : list string) : string := String.concat sep l.

Definition newline : string := String (ascii_of_nat 10) EmptyString.

Definition explanationOpening (domain : string) (v : Verdict) : string :=
  match v with
  | safe => (domain ++ " demonstrates strong security practices and can be considered trustworthy for most activities.")%string
  | warning => (domain ++ " shows mixed security signals. Exercise caution when sharing sensitive information.")%string
  | danger => (domain ++ " raises several security concerns. We recommend avoiding this site or proceeding with extreme caution.")%string
  end.

Definition explanationSummary (trustScore : Z) : string :=
  (newline ++ "Overall trust score: " ++ string_of_Z trustScore ++ "/100.")%string.

Definition simulateExplanation (r : AnalysisResult) : string :=
  let s := signals r in
  let sc := signalScores r in
  let sslPart :=
    if valid (ssl s) then
      ("The site uses HTTPS with a valid SSL certificate" ++
      (match issuer (ssl s) with
       | Some iss => if str_truthy (Some iss) then " issued by " ++ iss else ""
       | None => ""
       end) ++ ", ensuring encrypted communication.")%string
    else "⚠️ This site does not use HTTPS, meaning your data could be intercepted. Avoid entering sensitive information." in
  let headerPart :=
    if 80 <=? SignalScores.headers sc then
      [("Security headers are well-configured, including " ++
       js_join " and " (slice0 (present (headers s)) 2) ++ ".")%string]
    else match missing (headers s) with
         | [] => []
         | _ => [("Some security headers are missing (" ++
                 js_join ", " (slice0 (missing (headers s)) 2) ++
                 "), which could leave users vulnerable to certain attacks.")%string]
         end in
  let trackerPart :=
    match detected (trackers s) with
    | [] => []
    | _ =>
        if 70 <=? SignalScores.trackers sc then
          [("Standard analytics tools are present (" ++
           js_join ", " (slice0 (detected (trackers s)) 2) ++
           "), which is common for most websites.")%string]
        else
          [("Multiple tracking scripts detected (" ++
           string_of_Z (Z.of_nat (length (detected (trackers s)))) ++
           " total), which may impact your privacy.")%string]
    end in
  let cookiePart :=
    if 3 <? CookieSignal.thirdPartyCount (cookies s) then
      [(string_of_Z (CookieSignal.thirdPartyCount (cookies s)) ++
       " third-party cookies were detected, suggesting extensive cross-site tracking.")%string]
    else [] in
  let fpPart :=
    match risk (fingerprinting s) with
    | low => []
    | _ => [("Browser fingerprinting techniques detected (" ++
            js_join ", " (techniques (fingerprinting s)) ++
            "), which can be used to track you across websites.")%string]
    end in
  js_join " "
    (app [explanationOpening (res_domain r) (verdict r); sslPart]
     (app headerPart (app trackerPart (app cookiePart (app fpPart
       [explanationSummary (trustScore r)]))))).

(* ------------------------------------------------------------------ *)
(** * Background worker: analyzeSignals, generateExplanationAsync and the
      message handler *)

(** The worker's state: chrome.storage.local, chrome.storage.session's
    `currentTabResults` (tab id to result) and the in-memory status. *)
Record WorkerState := mkWorkerState {
  w_local : LocalStore;
  w_session : gmap Z AnalysisResult;
  w_status : ExtensionStatus
}.

(** updateStatus({ pendingAnalyses: n }) *)
Definition updateStatus_pendingAnalyses (es : ExtensionStatus) (n : Z) : ExtensionStatus :=
  mkExtensionStatus (isAuthenticated es) (connectionStatus es) n (offlineQueueSize es).

(** The readings one analyzeSignals call takes, in order: Math.random()
    draws (the first one sets the delay, the next ones are those of
    simulateAnalysis), the Date.now() of enhanceSignals, generateId(), the
    `new Date()` of analyzedAt, then the `new Date()` and Date.now() of
    setCachedResult. *)
Record AnalyzeReadings := mkAnalyzeReadings {
  rd_rng : Rng;
  rd_enhanceNow : Z;
  rd_newId : string;
  rd_analyzedAt : Z;
  rd_cachedAt : Z;
  rd_expiryNow : Z
}.

(** analyzeSignals run to completion (generateExplanationAsync is only
    started; it runs later, see below). *)
Definition analyzeSignals (w : WorkerState) (rd : AnalyzeReadings)
    (signals : PageSignals) (tabId : Z) : AnalysisResult * WorkerState :=
  let es1 := updateStatus_pendingAnalyses (w_status w) (pendingAnalyses (w_status w) + 1) in
  let '(_, g) := random (rd_rng rd) in
  let '(result, _) :=
    simulateAnalysis g (rd_enhanceNow rd) (rd_newId rd) (rd_analyzedAt rd) signals in
  let st := setCachedResult (w_local w) (rd_cachedAt rd) (rd_expiryNow rd)
                            (domain signals) result in
  let tabResults := <[tabId := result]> (w_session w) in
  let es2 := updateStatus_pendingAnalyses es1 (pendingAnalyses es1 - 1) in
  (result, mkWorkerState st tabResults es2).

Definition set_explanation (r : AnalysisResult) (e : ExplanationStatus) : AnalysisResult :=
  mkAnalysisResult (id r) (res_url r) (res_domain r) (trustScore r) (verdict r)
    (signalScores r) (signals r) (analyzedAt r) (Some e).

(** The clock readings of generateExplanationAsync after its delay: the
    `new Date()` of getCachedResult, the `new Date()` of generatedAt, and
    the two of setCachedResult. *)
Record ExplainReadings := mkExplainReadings {
  ex_lookupNow : Z;
  ex_generatedAt : Z;
  ex_cachedAt : Z;
  ex_expiryNow : Z
}.

(** generateExplanationAsync: the text is built from its argument, then
    written into whatever entry is cached under the argument's domain.  A
    RangeError of `toISOString` rejects the async function before the
    write; so does the TypeError of `cached.result.explanation = ...` on an
    inherited member, whose `result` is undefined. *)
Definition generateExplanationAsync (st : LocalStore) (rd : ExplainReadings)
    (r : AnalysisResult) : LocalStore :=
  let explanation := simulateExplanation r in
  let '(cached, st) := getCachedResult st (res_domain r) (ex_lookupNow rd) in
  match cached with
  | None => st
  | Some (ProtoMember _) => st
  | Some (OwnEntry c) =>
      match toISOString (ex_generatedAt rd) with
      | None => st
      | Some ga =>
          let r' := set_explanation (result c)
                      (mkExplanationStatus complete (Some explanation) (Some ga) None) in
          setCachedResult st (ex_cachedAt rd) (ex_expiryNow rd) (res_domain r) r'
      end
  end.

(** What `sendResponse` receives. *)
Inductive Reply :=
| ReplyAnalysis (r : AnalysisResult) (fromCache : bool)
| ReplyUndefinedResult (fromCache : bool)
    (* `{ result: undefined, fromCache }` *)
| ReplyCached (r : option AnalysisResult)
| ReplySuccess
| ReplyError (msg : string).

Definition with_local (w : WorkerState) (st : LocalStore) : WorkerState :=
  mkWorkerState st (w_session w) (w_status w).

(** ANALYZE_PAGE: the cache lookup under getDomainFromUrl(url), then, on a
    miss, the settled collection promise (`collected`) and analyzeSignals.
    A pending collection gives no reply yet; a rejected one makes
    handleAsync reject, which answers `{ error }`. *)
Definition handleAnalyzePage (url_hostname : string -> option string) (w : WorkerState) (u : string) (tabId : Z) (lookupNow : Z)
    (collected : PromiseState) (rd : AnalyzeReadings) : option Reply * WorkerState :=
  let '(cached, st) := getCachedResult (w_local w) (getDomainFromUrl url_hostname u) lookupNow in
  let w := with_local w st in
  match cached with
  | Some (OwnEntry c) => (Some (ReplyAnalysis (result c) true), w)
  | Some (ProtoMember _) => (Some (ReplyUndefinedResult true), w)
  | None =>
      match collected with
      | PPending => (None, w)
      | PRejected e => (Some (ReplyError e), w)
      | PFulfilled s =>
          let '(r, w) := analyzeSignals w rd s tabId in
          (Some (ReplyAnalysis r false), w)
      end
  end.

(** GET_CACHED_RESULT: `{ result: cached?.result || null }`; an inherited
    member has no `result`. *)
Definition handleGetCachedResult (w : WorkerState) (d : string) (now : Z) : Reply * WorkerState :=
  let '(cached, st) := getCachedResult (w_local w) d now in
  let res := match cached with
             | Some (OwnEntry c) => Some (result c)
             | _ => None
             end in
  (ReplyCached res, with_local w st).

(** CLEAR_CACHE: chrome.storage.local.set({ cachedResults: {} }). *)
Definition handleClearCache (w : WorkerState) : Reply * WorkerState :=
  (ReplySuccess, with_local w (with_cachedResults (w_local w) ∅)).

(* ------------------------------------------------------------------ *)
(** * Content script (src/content/index.ts) *)

(** str.split(sep) for a one-character separator. *)
Fixpoint split_char (sep : ascii) (s : string) : list string :=
  match s with
  | EmptyString => [EmptyString]
  | String c s' =>
      let rest := split_char sep s' in
      if Ascii.eqb c sep then EmptyString :: rest
      else match rest with
           | [] => [String c EmptyString]
           | w :: ws => String c w :: ws
           end
  end.

(** The white space String.prototype.trim removes, on ASCII text: TAB, LF,
    VT, FF, CR and SPACE. *)
Definition is_js_space (c : ascii) : bool :=
  let n := nat_of_ascii c in ((9 <=? n)%nat && (n <=? 13)%nat) || (n =? 32)%nat.

Fixpoint trim_start (s : string) : string :=
  match s with
  | EmptyString => EmptyString
  | String c s' => if is_js_space c then trim_start s' else s
  end.

Definition str_rev (s : string) : string :=
  string_of_list_ascii (rev (list_ascii_of_string s)).

Definition js_trim (s : string) : string := str_rev (trim_start (str_rev (trim_start s))).

(** collectCookies for `document.cookie` = `cookieString`, on a page with
    hostname `hostname` and location.protocol `protocol`. *)
Definition collectCookies (cookieString hostname protocol : string) : CookieSignal.t :=
  let cookies :=
    if String.eqb cookieString "" then []
    else fold_left
           (fun acc pair =>
              let name := match split_char "=" (js_trim pair) with
                          | w :: _ => w
                          | [] => EmptyString
                          end in
              if String.eqb name "" then acc
              else app acc [mkCookieInfo (js_trim name) hostname
                                         (String.eqb protocol "https:") false])
           (split_char ";" cookieString) [] in
  let thirdPartyEstimate := Qfloor (fl (inject_Z (Z.of_nat (length cookies)) * fl (3 # 10))) in
  CookieSignal.mk (Z.of_nat (length cookies)) thirdPartyEstimate cookies.

(** analyzeHeaders: whether the page has a CSP meta tag and a referrer
    meta tag. *)
Definition analyzeHeaders (hasCspMeta hasReferrerMeta : bool) : HeaderSignal :=
  let present :=
    app (if hasCspMeta then ["Content-Security-Policy (meta)"]%string else [])
        (if hasReferrerMeta then ["Referrer-Policy (meta)"]%string else []) in
  let issues :=
    match present with
    | [] => ["Header analysis limited - requires background script for full HTTP header inspection"]%string
    | _ => []
    end in
  mkHeaderSignal present [] issues.

(** detectFingerprinting: whether the page has a canvas element, whether a
    WebGL context with WEBGL_debug_renderer_info is available, and the
    text of every script element. *)
Definition detectFingerprinting (hasCanvas webglDebugInfo : bool)
    (scriptTexts : list string) : FingerprintSignal :=
  let webgl := webglDebugInfo &&
               existsb (fun c => includes c "WEBGL_debug_renderer_info") scriptTexts in
  let audio := existsb (fun c => includes c "AudioContext" && includes c "createOscillator")
                       scriptTexts in
  let fonts := existsb (fun c => includes c "measureText" && includes c "font") scriptTexts in
  let techniques :=
    app (if hasCanvas then ["Canvas"]%string else [])
    (app (if webgl then ["WebGL"]%string else [])
    (app (if audio then ["Audio"]%string else [])
         (if fonts then ["Fonts"]%string else []))) in
  let risk :=
    if 3 <=? Z.of_nat (length techniques) then high
    else if 1 <=? Z.of_nat (length techniques) then medium
    else low in
  mkFingerprintSignal techniques risk.

Definition trackerNames : list string :=
  ["Google Analytics"; "Facebook Pixel"; "Google Tag Manager"; "Hotjar"; "Mixpanel";
   "Segment"; "Amplitude"; "Intercom"; "Microsoft Clarity"; "DoubleClick";
   "Google AdSense"; "Twitter Ads"; "LinkedIn Insight"; "LinkedIn Pixel";
   "TikTok Pixel"; "Pinterest Tag"; "Criteo"; "Taboola"; "Outbrain"; "Quantcast";
   "comScore"; "New Relic"; "Sentry"]%string.

(** An img element: its src attribute, width, naturalWidth, height and
    naturalHeight. *)
Record ImgInfo := mkImgInfo {
  img_src : string;
  img_width : Z;
  img_naturalWidth : Z;
  img_height : Z;
  img_naturalHeight : Z
}.

Section DetectTrackers.

(** `tracker.pattern.test(text)` for the pattern listed with a tracker
    name (the names are distinct). *)
Variable patternTest : string -> string -> bool.

(** The inner `for (const tracker of trackerPatterns)` loop on one text. *)
Definition addMatches (detected : list string) (text : string) : list string :=
  fold_left (fun det nm =>
               if patternTest nm text && negb (existsb (String.eqb nm) det)
               then app det [nm] else det)
            trackerNames detected.

(** `img.width || img.naturalWidth` *)
Definition js_or_num (a b : Z) : Z := if a =? 0 then b else a.

Definition detectTrackers (scriptSrcs inlineTexts : list string) (images : list ImgInfo)
    : TrackerSignal :=
  let det := fold_left addMatches scriptSrcs [] in
  let det := fold_left addMatches inlineTexts det in
  let det :=
    fold_left (fun det img =>
                 let w := js_or_num (img_width img) (img_naturalWidth img) in
                 let h := js_or_num (img_height img) (img_naturalHeight img) in
                 if ((w <=? 1) && (h <=? 1)) || includes (img_src img) "/pixel"
                    || includes (img_src img) "/beacon"
                 then addMatches det (img_src img) else det)
              images det in
  mkTrackerSignal det 0 (slice0 scriptSrcs 20).

End DetectTrackers.

(* ------------------------------------------------------------------ *)
(** * Predicates and concrete inputs used by the proofs *)

Definition scores_in_range (sc : SignalScores.t) : Prop :=
  0 <= SignalScores.cookies sc <= 100 /\
  0 <= SignalScores.trackers sc <= 100 /\
  0 <= SignalScores.fingerprinting sc <= 100 /\
  0 <= SignalScores.headers sc <= 100 /\
  0 <= SignalScores.ssl sc <= 100.

(** Componentwise order on category scores. *)
Definition scores_le (a b : SignalScores.t) : Prop :=
  SignalScores.cookies a <= SignalScores.cookies b /\
  SignalScores.trackers a <= SignalScores.trackers b /\
  SignalScores.fingerprinting a <= SignalScores.fingerprinting b /\
  SignalScores.headers a <= SignalScores.headers b /\
  SignalScores.ssl a <= SignalScores.ssl b.

(** Every Math.random() draw is a binary64 value in [0,1). *)
Definition draws_in_unit (g : Rng) : Prop :=
  forall n, (fl (Str_nth n g) == Str_nth n g)%Q /\ (0 <= Str_nth n g)%Q /\ (Str_nth n g < 1)%Q.

Definition detected_signals : PageSignals :=
  mkPageSignals "https://shop.example.org/" "shop.example.org" 0
    (CookieSignal.mk 2 1 []) (mkTrackerSignal ["Hotjar"]%string 0 [])
    (mkFingerprintSignal ["Canvas"]%string medium) (mkHeaderSignal [] [] [])
    (mkSSLSignal true None None None).

(** A trusted page with a detected tracker and no fingerprinting technique. *)
Definition trusted_detected_signals : PageSignals :=
  mkPageSignals "https://github.com/" "github.com" 0
    (CookieSignal.mk 2 1 []) (mkTrackerSignal ["Hotjar"]%string 0 [])
    (mkFingerprintSignal [] low) (mkHeaderSignal [] [] [])
    (mkSSLSignal true None None None).

Definition example_result : AnalysisResult :=
  fst (simulateAnalysis (Streams.const 0%Q) 0 "r0" 0 example_signals).

Definition example_store : LocalStore := mkLocalStore ∅ [] None.

Definition expired_store : LocalStore :=
  mkLocalStore {[ "example.com" := mkCachedAnalysis example_result 0 100 ]} [] None.

(** The stored map has no own "__proto__" entry: the code never writes
    one (see js_set), so every store it produces from `{}` has none. *)
Definition no_own_proto (st : LocalStore) : Prop :=
  cachedResults st !! "__proto__"%string = None.


Definition queued_le (a b : OfflineQueueItem) : Prop := queuedAt a <= queuedAt b.

(** Enqueue clock readings: each at least the previous one, starting from
    a bound `lo` on the queuedAt already stored. *)
Fixpoint clocks_from (lo : Z) (ops : list QueueOp) : Prop :=
  match ops with
  | [] => True
  | Enqueue _ n _ :: ops' => lo <= n /\ clocks_from n ops'
  | Dequeue _ :: ops' => clocks_from lo ops'
  end.

Definition empty_bg : BgState :=
  mkBgState example_store (mkExtensionStatus false offline 0 0).

Definition example_ops : list QueueOp :=
  [Enqueue "q1" 10 example_signals; Enqueue "q2" 20 example_signals; Dequeue "q1"].

Definition example_url : string := "https://example.com/".

(** The first tabs.sendMessage fails, executeScript fails, then the timer
    fires. *)
Definition injection_failure_trace : list CollectEvent :=
  [CollectStart 1 5 example_url; SendFailed 1 5;
   InjectFailed 1 5 "Cannot access contents of the page"; Timeout 1 5 example_url 10000].

Definition registered_state : CollectState :=
  run_collect example_url_hostname initCollectState [CollectStart 1 5 example_url].

(** Two ANALYZE_PAGE requests for tab 5 overlap; no SIGNALS_COLLECTED
    arrives and both timers fire. *)
Definition overlapping_trace : list CollectEvent :=
  [CollectStart 1 5 example_url; CollectStart 2 5 example_url;
   Timeout 1 5 example_url 10000; Timeout 2 5 example_url 11000].

Definition example_readings : AnalyzeReadings :=
  mkAnalyzeReadings (Streams.const 0%Q) 0 "r1" 0 0 0.

Definition example_worker : WorkerState :=
  mkWorkerState example_store ∅ (mkExtensionStatus false offline 0 0).

Definition older_result : AnalysisResult :=
  mkAnalysisResult "r0" "https://example.com/" "example.com" 12 danger
    (signalScores example_result) (signals example_result) 0
    (Some (mkExplanationStatus pending None None None)).

(* ------------------------------------------------------------------ *)
(** * Auxiliary lemmas on the scoring arithmetic *)

Example trusted_github : isTrustedDomain "gist.github.com" = true.
Proof. reflexivity. Qed.
Example suspicious_xyz : isSuspiciousPage "a.xyz" "https://a.xyz/" = true.
Proof. reflexivity. Qed.


(* ------------------------------------------------------------------ *)
(** * Binary64 rounding: monotonicity and error bounds *)

Lemma two_neq0 : ~ (2 == 0)%Q.
Proof. intros H. compute in H. discriminate. Qed.

Lemma pow2_pos (e : Z) : (0 < pow2 e)%Q.
Proof. apply Qpower_0_lt. reflexivity. Qed.

Lemma pow2_add (a b : Z) : (pow2 (a + b) == pow2 a * pow2 b)%Q.
Proof. apply Qpower_plus, two_neq0. Qed.

Lemma pow2_le (a b : Z) : a <= b -> (pow2 a <= pow2 b)%Q.
Proof. intros H. apply Qpower_le_compat_l; [exact H|]. discriminate. Qed.

Lemma pow2_lt (a b : Z) : a < b -> (pow2 a < pow2 b)%Q.
Proof. intros H. apply Qpower_lt_compat_l; [exact H|]. reflexivity. Qed.

Lemma pow2_nonneg (e : Z) : 0 <= e -> (pow2 e == inject_Z (2 ^ e))%Q.
Proof. intros H. unfold pow2. rewrite Zpower_Qpower by exact H. reflexivity. Qed.

Lemma pow2_opp (e : Z) : (pow2 (- e) == / pow2 e)%Q.
Proof. apply Qpower_opp. Qed.

Lemma round_ne_comp (q1 q2 : Q) : (q1 == q2)%Q -> round_ne q1 = round_ne q2.
Proof.
  intros H. unfold round_ne. rewrite (Qfloor_comp _ _ H).
  assert (E : Qcompare (q1 - inject_Z (Qfloor q2)) (1 # 2) =
              Qcompare (q2 - inject_Z (Qfloor q2)) (1 # 2)).
  { apply Qcompare_comp; [rewrite H|]; reflexivity. }
  rewrite E. reflexivity.
Qed.

Lemma Qfloor_inject_Z (z : Z) : Qfloor (inject_Z z) = z.
Proof. unfold Qfloor, inject_Z. cbn. apply Z.div_1_r. Qed.

Lemma round_ne_int (z : Z) : round_ne (inject_Z z) = z.
Proof.
  unfold round_ne. rewrite Qfloor_inject_Z.
  assert (E : Qcompare (inject_Z z - inject_Z z) (1 # 2) = Qcompare 0 (1 # 2)).
  { apply Qcompare_comp; [ring|reflexivity]. }
  rewrite E. reflexivity.
Qed.

Lemma floor_frac (q : Q) : (0 <= q - inject_Z (Qfloor q) < 1)%Q.
Proof.
  pose proof (Qfloor_le q). pose proof (Qlt_floor q).
  rewrite inject_Z_plus in H0. unfold inject_Z at 2 in H0. lra.
Qed.

Lemma round_ne_cases (q : Q) :
  let f := Qfloor q in
  (round_ne q = f /\ (q - inject_Z f <= 1 # 2)%Q) \/
  (round_ne q = f + 1 /\ (1 # 2 <= q - inject_Z f)%Q).
Proof.
  cbv zeta. unfold round_ne.
  destruct (Qcompare_spec (q - inject_Z (Qfloor q)) (1 # 2)) as [H|H|H].
  - destruct (Z.even (Qfloor q)); [left|right]; split; try reflexivity; rewrite H; apply Qle_refl.
  - left. split; [reflexivity|]. apply Qlt_le_weak, H.
  - right. split; [reflexivity|]. apply Qlt_le_weak, H.
Qed.

Lemma round_ne_bounds (q : Q) :
  (inject_Z (round_ne q) - (1 # 2) <= q <= inject_Z (round_ne q) + (1 # 2))%Q.
Proof.
  pose proof (floor_frac q) as Hf.
  destruct (round_ne_cases q) as [[-> H]|[-> H]].
  - lra.
  - rewrite inject_Z_plus. change (inject_Z 1) with 1%Q. lra.
Qed.

Lemma round_ne_mono (q1 q2 : Q) : (q1 <= q2)%Q -> round_ne q1 <= round_ne q2.
Proof.
  intros H.
  pose proof (Qfloor_resp_le _ _ H) as Hf.
  destruct (Z.eq_dec (Qfloor q1) (Qfloor q2)) as [E|E].
  - unfold round_ne. rewrite E.
    set (f := Qfloor q2) in *.
    assert (Hle : (q1 - inject_Z f <= q2 - inject_Z f)%Q) by lra.
    destruct (Qcompare_spec (q1 - inject_Z f) (1 # 2)) as [H1|H1|H1];
    destruct (Qcompare_spec (q2 - inject_Z f) (1 # 2)) as [H2|H2|H2];
    try (destruct (Z.even f); lia); lra.
  - assert (Hlt : Qfloor q1 < Qfloor q2) by lia.
    destruct (round_ne_cases q1) as [[-> _]|[-> _]];
    destruct (round_ne_cases q2) as [[-> _]|[-> _]]; lia.
Qed.

Lemma pow2_diff (m n : Z) : 0 <= m -> 0 <= n ->
  (pow2 (m - n) == inject_Z (2 ^ m) / inject_Z (2 ^ n))%Q.
Proof.
  intros Hm Hn. unfold Z.sub. rewrite pow2_add, pow2_opp, !pow2_nonneg by assumption.
  reflexivity.
Qed.

Lemma ilog2_spec (x : Q) : (0 < x)%Q -> (pow2 (ilog2 x) <= x < pow2 (ilog2 x + 1))%Q.
Proof.
  destruct x as [a d]. intros Hx.
  assert (Ha : 0 < a) by (unfold Qlt in Hx; cbn in Hx; lia).
  unfold ilog2. cbn [Qnum Qden].
  pose proof (Z.log2_spec a Ha) as [A1 A2].
  pose proof (Z.log2_spec (Zpos d) eq_refl) as [D1 D2].
  pose proof (Z.log2_nonneg a) as Hla. pose proof (Z.log2_nonneg (Zpos d)) as Hld.
  set (la := Z.log2 a) in *. set (ld := Z.log2 (Zpos d)) in *.
  rewrite Z.pow_succ_r in A2, D2 by assumption.
  assert (P1 : 0 < 2 ^ ld) by (apply Z.pow_pos_nonneg; lia).
  assert (P2 : 0 < 2 ^ la) by (apply Z.pow_pos_nonneg; lia).
  assert (CA : ((a # d) < pow2 (la - ld + 1))%Q).
  { replace (la - ld + 1) with ((la + 1) - ld) by ring.
    rewrite pow2_diff by lia. apply Qlt_shift_div_l.
    - change 0%Q with (inject_Z 0). rewrite <- Zlt_Qlt. exact P1.
    - rewrite Z.pow_add_r by lia. unfold Qlt, Qmult, inject_Z. cbn [Qnum Qden].
      rewrite Z.pow_1_r. nia. }
  assert (CB : (pow2 (la - ld - 1) < (a # d))%Q).
  { replace (la - ld - 1) with (la - (ld + 1)) by ring.
    rewrite pow2_diff by lia. apply Qlt_shift_div_r.
    - change 0%Q with (inject_Z 0). rewrite <- Zlt_Qlt. apply Z.pow_pos_nonneg; lia.
    - rewrite Z.pow_add_r by lia. unfold Qlt, Qmult, inject_Z. cbn [Qnum Qden].
      rewrite Z.pow_1_r. nia. }
  destruct (Qle_bool (pow2 (la - ld)) (a # d)) eqn:E.
  - apply Qle_bool_iff in E. split; assumption.
  - split.
    + apply Qlt_le_weak. exact CB.
    + replace (la - ld - 1 + 1) with (la - ld) by ring.
      apply Qnot_le_lt. intros H. apply Qle_bool_iff in H. congruence.
Qed.

Lemma ilog2_unique (x : Q) (k : Z) :
  (pow2 k <= x < pow2 (k + 1))%Q -> ilog2 x = k.
Proof.
  intros [H1 H2].
  assert (Hx : (0 < x)%Q) by (eapply Qlt_le_trans; [apply pow2_pos|exact H1]).
  destruct (ilog2_spec x Hx) as [S1 S2].
  destruct (Z.lt_total (ilog2 x) k) as [L|[L|L]]; [|exact L|].
  - exfalso. assert (Hp : (pow2 (ilog2 x + 1) <= pow2 k)%Q) by (apply pow2_le; lia). lra.
  - exfalso. assert (Hp : (pow2 (k + 1) <= pow2 (ilog2 x))%Q) by (apply pow2_le; lia). lra.
Qed.

Lemma ilog2_mono (x y : Q) : (0 < x)%Q -> (x <= y)%Q -> ilog2 x <= ilog2 y.
Proof.
  intros Hx Hxy.
  destruct (ilog2_spec x Hx) as [S1 S2].
  destruct (ilog2_spec y (Qlt_le_trans _ _ _ Hx Hxy)) as [T1 T2].
  destruct (Z_le_gt_dec (ilog2 x) (ilog2 y)) as [L|L]; [exact L|].
  exfalso. assert (Hp : (pow2 (ilog2 y + 1) <= pow2 (ilog2 x))%Q) by (apply pow2_le; lia). lra.
Qed.

Lemma ilog2_comp (x y : Q) : (0 < x)%Q -> (x == y)%Q -> ilog2 x = ilog2 y.
Proof.
  intros Hx E. apply Z.le_antisymm.
  - apply ilog2_mono; [exact Hx | rewrite E; apply Qle_refl].
  - apply ilog2_mono; [rewrite <- E; exact Hx | rewrite E; apply Qle_refl].
Qed.

Lemma pow2_div (k e : Z) : e <= k -> (pow2 k / pow2 e == inject_Z (2 ^ (k - e)))%Q.
Proof.
  intros H. rewrite <- pow2_nonneg by lia.
  assert (E : (pow2 k == pow2 (k - e) * pow2 e)%Q).
  { rewrite <- pow2_add. replace (k - e + e) with k by ring. reflexivity. }
  rewrite E. field. apply Qnot_eq_sym, Qlt_not_eq, pow2_pos.
Qed.

Lemma round_pos_comp (x y : Q) : (0 < x)%Q -> (x == y)%Q -> (round_pos x == round_pos y)%Q.
Proof.
  intros Hx E. unfold round_pos, ulp_exp. rewrite <- (ilog2_comp x y Hx E).
  set (p := pow2 (Z.max (ilog2 x - 52) (-1074))).
  assert (Ed : (x / p == y / p)%Q) by (rewrite E; reflexivity).
  rewrite (round_ne_comp _ _ Ed). reflexivity.
Qed.

Lemma inject_Z_nonneg (z : Z) : 0 <= z -> (0 <= inject_Z z)%Q.
Proof. intros H. change 0%Q with (inject_Z 0). rewrite <- Zle_Qle. exact H. Qed.

Lemma round_pos_nonneg (x : Q) : (0 < x)%Q -> (0 <= round_pos x)%Q.
Proof.
  intros Hx. unfold round_pos.
  set (p := pow2 (ulp_exp x)). assert (Hp : (0 < p)%Q) by apply pow2_pos.
  assert (H0 : 0 <= round_ne (x / p)).
  { rewrite <- (round_ne_int 0). apply round_ne_mono.
    apply Qle_shift_div_l; [exact Hp|]. change (inject_Z 0) with 0%Q. lra. }
  apply Qmult_le_0_compat; [apply inject_Z_nonneg, H0 | lra].
Qed.

Lemma round_pos_mono (x y : Q) : (0 < x)%Q -> (x <= y)%Q -> (round_pos x <= round_pos y)%Q.
Proof.
  intros Hx Hxy.
  assert (Hy : (0 < y)%Q) by lra.
  pose proof (ilog2_mono x y Hx Hxy) as Hl.
  pose proof (ilog2_spec x Hx) as [S1 S2]. pose proof (ilog2_spec y Hy) as [T1 T2].
  unfold round_pos.
  set (ex := ulp_exp x). set (ey := ulp_exp y).
  assert (Hex : ex <= ey) by (unfold ex, ey, ulp_exp; lia).
  pose proof (pow2_pos ex) as Px. pose proof (pow2_pos ey) as Py.
  destruct (Z.eq_dec ex ey) as [E|E].
  - rewrite <- E. apply Qmult_le_compat_r; [|lra].
    rewrite <- Zle_Qle. apply round_ne_mono.
    apply Qmult_le_compat_r; [exact Hxy|]. apply Qlt_le_weak, Qinv_lt_0_compat, Px.
  - assert (Hey : ey = ilog2 y - 52) by (unfold ex, ey, ulp_exp in *; lia).
    set (B := pow2 (ey + 52)).
    assert (HxB : (x < B)%Q).
    { eapply Qlt_le_trans; [exact S2|]. apply pow2_le. unfold ex, ulp_exp in *; lia. }
    assert (HBy : (B <= y)%Q) by (unfold B; rewrite Hey; replace (ilog2 y - 52 + 52) with (ilog2 y) by ring; exact T1).
    apply Qle_trans with B.
    + assert (Hn : (B / pow2 ex == inject_Z (2 ^ (ey + 52 - ex)))%Q) by (unfold B; apply pow2_div; lia).
      assert (Hm : round_ne (x / pow2 ex) <= 2 ^ (ey + 52 - ex)).
      { rewrite <- (round_ne_int (2 ^ (ey + 52 - ex))). apply round_ne_mono.
        rewrite <- Hn. apply Qmult_le_compat_r; [lra|].
        apply Qlt_le_weak, Qinv_lt_0_compat, Px. }
      apply Qle_trans with (inject_Z (2 ^ (ey + 52 - ex)) * pow2 ex)%Q.
      * apply Qmult_le_compat_r; [|lra]. rewrite <- Zle_Qle. exact Hm.
      * rewrite <- Hn. field_simplify; [apply Qle_refl|]. apply Qnot_eq_sym, Qlt_not_eq, Px.
    + assert (Hn : (B / pow2 ey == inject_Z (2 ^ 52))%Q).
      { unfold B. rewrite pow2_div by lia. replace (ey + 52 - ey) with 52 by ring. reflexivity. }
      assert (Hm : 2 ^ 52 <= round_ne (y / pow2 ey)).
      { rewrite <- (round_ne_int (2 ^ 52)). apply round_ne_mono.
        rewrite <- Hn. apply Qmult_le_compat_r; [lra|].
        apply Qlt_le_weak, Qinv_lt_0_compat, Py. }
      apply Qle_trans with (inject_Z (2 ^ 52) * pow2 ey)%Q.
      * rewrite <- Hn. field_simplify; [apply Qle_refl|]. apply Qnot_eq_sym, Qlt_not_eq, Py.
      * apply Qmult_le_compat_r; [|lra]. rewrite <- Zle_Qle. exact Hm.
Qed.

Lemma round_pos_upper (x : Q) : (0 < x)%Q ->
  (round_pos x <= x + (x * pow2 (-52) + pow2 (-1074)) * (1 # 2))%Q.
Proof.
  intros Hx. unfold round_pos.
  set (e := ulp_exp x). pose proof (pow2_pos e) as Pe.
  pose proof (round_ne_bounds (x / pow2 e)) as [H _].
  assert (H1 : (inject_Z (round_ne (x / pow2 e)) * pow2 e <= x + pow2 e * (1 # 2))%Q).
  { apply Qle_trans with ((x / pow2 e + (1 # 2)) * pow2 e)%Q.
    - apply Qmult_le_compat_r; lra.
    - field_simplify; [|apply Qnot_eq_sym, Qlt_not_eq, Pe]. lra. }
  assert (H2 : (pow2 e <= x * pow2 (-52) + pow2 (-1074))%Q).
  { pose proof (ilog2_spec x Hx) as [S1 _].
    pose proof (pow2_pos (-52)). pose proof (pow2_pos (-1074)).
    unfold e, ulp_exp. destruct (Z.max_spec (ilog2 x - 52) (-1074)) as [[_ ->]|[_ ->]].
    - assert (0 <= x * pow2 (-52))%Q by (apply Qmult_le_0_compat; lra). lra.
    - replace (ilog2 x - 52) with (ilog2 x + (-52)) by ring. rewrite pow2_add.
      assert (x * pow2 (-52) >= pow2 (ilog2 x) * pow2 (-52))%Q by (apply Qmult_le_compat_r; lra).
      lra. }
  lra.
Qed.

Lemma fl_pos (x : Q) : (0 < x)%Q -> fl x = round_pos x.
Proof. intros H. unfold fl. rewrite (proj1 (Qgt_alt x 0) H). reflexivity. Qed.

Lemma fl_neg (x : Q) : (x < 0)%Q -> fl x = (- round_pos (- x))%Q.
Proof. intros H. unfold fl. rewrite (proj1 (Qlt_alt x 0) H). reflexivity. Qed.

Lemma fl_zero (x : Q) : (x == 0)%Q -> fl x = 0%Q.
Proof. intros H. unfold fl. rewrite (proj1 (Qeq_alt x 0) H). reflexivity. Qed.

Lemma fl_nonneg (x : Q) : (0 <= x)%Q -> (0 <= fl x)%Q.
Proof.
  intros H. destruct (Qeq_dec x 0) as [E|E].
  - rewrite (fl_zero x E). apply Qle_refl.
  - assert (Hx : (0 < x)%Q) by (apply Qle_lt_or_eq in H as [H|H]; [exact H|symmetry in H; contradiction]).
    rewrite (fl_pos x Hx). apply round_pos_nonneg, Hx.
Qed.

Lemma fl_nonpos (x : Q) : (x <= 0)%Q -> (fl x <= 0)%Q.
Proof.
  intros H. destruct (Qeq_dec x 0) as [E|E].
  - rewrite (fl_zero x E). apply Qle_refl.
  - assert (Hx : (x < 0)%Q) by (apply Qle_lt_or_eq in H as [H|H]; [exact H|contradiction]).
    rewrite (fl_neg x Hx). assert (0 <= round_pos (- x))%Q by (apply round_pos_nonneg; lra). lra.
Qed.

Lemma fl_mono (x y : Q) : (x <= y)%Q -> (fl x <= fl y)%Q.
Proof.
  intros H.
  destruct (Qlt_le_dec 0 x) as [Hx|Hx].
  - rewrite (fl_pos x Hx), (fl_pos y) by lra. apply round_pos_mono; assumption.
  - destruct (Qlt_le_dec y 0) as [Hy|Hy].
    + destruct (Qeq_dec x 0) as [E|E]; [lra|].
      assert (Hx' : (x < 0)%Q) by (apply Qle_lt_or_eq in Hx as [Hx|Hx]; [exact Hx|contradiction]).
      rewrite (fl_neg x Hx'), (fl_neg y Hy).
      assert (round_pos (- y) <= round_pos (- x))%Q by (apply round_pos_mono; lra). lra.
    + apply Qle_trans with 0%Q; [apply fl_nonpos, Hx | apply fl_nonneg, Hy].
Qed.

Lemma fl_comp (x y : Q) : (x == y)%Q -> (fl x == fl y)%Q.
Proof.
  intros E. apply Qle_antisym; apply fl_mono; rewrite E; apply Qle_refl.
Qed.

Lemma fl_upper (x : Q) : (0 <= x)%Q ->
  (fl x <= x + (x * pow2 (-52) + pow2 (-1074)) * (1 # 2))%Q.
Proof.
  intros H. pose proof (pow2_pos (-1074)).
  destruct (Qeq_dec x 0) as [E|E].
  - rewrite (fl_zero x E), E. lra.
  - assert (Hx : (0 < x)%Q) by (apply Qle_lt_or_eq in H as [H|H]; [exact H|symmetry in H; contradiction]).
    rewrite (fl_pos x Hx). apply round_pos_upper, Hx.
Qed.

(** A binary64 value below 1 is at most 1 - 2^-53. *)
Lemma double_below_one (r : Q) : (fl r == r)%Q -> (r < 1)%Q -> (r <= 1 - pow2 (-53))%Q.
Proof.
  intros Hd H1.
  assert (Hp : (pow2 (-53) == 1 # 9007199254740992)%Q) by (vm_compute; reflexivity).
  rewrite Hp.
  destruct (Qlt_le_dec (1 # 2) r) as [Hr|Hr]; [|unfold Qle in *; cbn in *; lia].
  assert (Hr0 : (0 < r)%Q) by lra.
  rewrite (fl_pos r Hr0) in Hd. unfold round_pos, ulp_exp in Hd.
  assert (Hl : ilog2 r = -1).
  { apply ilog2_unique. split; [vm_compute pow2; lra|vm_compute pow2; lra]. }
  rewrite Hl in Hd. change (Z.max (-1 - 52) (-1074)) with (-53) in Hd.
  set (m := round_ne (r / pow2 (-53))) in Hd. rewrite Hp in Hd.
  rewrite <- Hd in H1 |- *. unfold Qlt, Qle, Qmult, Qminus, Qplus, Qopp, inject_Z in *. cbn [Qnum Qden] in *. lia.
Qed.

Lemma fl_mult_mono (x y w : Q) : (0 <= w)%Q -> (x <= y)%Q -> (fl (x * w) <= fl (y * w))%Q.
Proof. intros Hw H. apply fl_mono, Qmult_le_compat_r; assumption. Qed.

(** Math.floor(r * k) for a binary64 draw r in [0,1) lies in [0,k) as soon
    as the binary64 product (1 - 2^-53) * k stays below k. *)
Lemma draw_floor_fl (r : Q) (k : Z) :
  (fl r == r)%Q -> (0 <= r)%Q -> (r < 1)%Q -> 0 < k ->
  (fl (inject_Z k - inject_Z k * pow2 (-53)) < inject_Z k)%Q ->
  0 <= Qfloor (fl (r * inject_Z k)) < k.
Proof.
  intros Hd H0 H1 Hk Htop.
  pose proof (double_below_one r Hd H1) as Hr.
  assert (Hk' : (0 <= inject_Z k)%Q) by (apply inject_Z_nonneg; lia).
  assert (Ha : (0 <= fl (r * inject_Z k))%Q) by (apply fl_nonneg, Qmult_le_0_compat; assumption).
  assert (Hb : (fl (r * inject_Z k) < inject_Z k)%Q).
  { eapply Qle_lt_trans; [|exact Htop]. apply fl_mono.
    apply Qle_trans with ((1 - pow2 (-53)) * inject_Z k)%Q.
    - apply Qmult_le_compat_r; assumption.
    - ring_simplify. apply Qle_refl. }
  split.
  - change 0 with (Qfloor 0). apply Qfloor_resp_le. exact Ha.
  - pose proof (Qfloor_le (fl (r * inject_Z k))) as Hf.
    rewrite Zlt_Qlt. lra.
Qed.

(* ------------------------------------------------------------------ *)
(** * Category scores *)

Lemma clamp100_range (x : Z) : 0 <= clamp100 x <= 100.
Proof. unfold clamp100. lia. Qed.

Lemma js_round_range (x : Q) : (0 <= x)%Q -> (x <= 100)%Q -> 0 <= js_round x <= 100.
Proof.
  intros H0 H1. unfold js_round.
  pose proof (Qfloor_le (x + (1 # 2))) as Hle.
  pose proof (Qlt_floor (x + (1 # 2))) as Hlt.
  split.
  - destruct (Z_lt_le_dec (Qfloor (x + (1 # 2))) 0) as [Hn|Hn]; [|exact Hn].
    exfalso. assert (Hq : (inject_Z (Qfloor (x + (1 # 2))) <= inject_Z (-1))%Q)
      by (rewrite <- Zle_Qle; lia).
    rewrite inject_Z_plus in Hlt. unfold inject_Z at 2 in Hlt.
    unfold inject_Z at 2 in Hq. lra.
  - destruct (Z_le_gt_dec (Qfloor (x + (1 # 2))) 100) as [Hn|Hn]; [exact Hn|].
    exfalso. assert (Hq : (inject_Z 101 <= inject_Z (Qfloor (x + (1 # 2))))%Q)
      by (rewrite <- Zle_Qle; lia).
    unfold inject_Z at 1 in Hq. lra.
Qed.

Lemma inject_Z_range (z : Z) : 0 <= z <= 100 -> (0 <= inject_Z z)%Q /\ (inject_Z z <= 100)%Q.
Proof.
  intros [H0 H1]. split.
  - change 0%Q with (inject_Z 0). rewrite <- Zle_Qle. exact H0.
  - change 100%Q with (inject_Z 100). rewrite <- Zle_Qle. exact H1.
Qed.

Lemma calculateSignalScores_range (s : PageSignals) (isTrusted isSuspicious : bool) :
  scores_in_range (calculateSignalScores s isTrusted isSuspicious).
Proof.
  unfold scores_in_range, calculateSignalScores; cbn [SignalScores.cookies
    SignalScores.trackers SignalScores.fingerprinting SignalScores.headers
    SignalScores.ssl].
  repeat split; apply clamp100_range.
Qed.

(** Decides a comparison of two closed rationals by evaluation. *)
Ltac qcheck := first [apply Qle_bool_iff | apply Qlt_alt]; vm_compute; reflexivity.

Lemma js_round_mono (x y : Q) : (x <= y)%Q -> js_round x <= js_round y.
Proof. intros H. unfold js_round. apply Qfloor_resp_le. lra. Qed.

Lemma aggregateTrustScore_mono (a b : SignalScores.t) :
  scores_le a b -> aggregateTrustScore a <= aggregateTrustScore b.
Proof.
  intros (H1 & H2 & H3 & H4 & H5). unfold aggregateTrustScore. apply js_round_mono.
  rewrite Zle_Qle in H1, H2, H3, H4, H5.
  repeat (apply fl_mono; apply Qplus_le_compat);
    apply fl_mult_mono; first [assumption | qcheck].
Qed.

(** In binary64 the weighted sum of five scores of 100 is exactly 100. *)
Lemma aggregateTrustScore_range (sc : SignalScores.t) :
  scores_in_range sc -> 0 <= aggregateTrustScore sc <= 100.
Proof.
  intros Hr.
  assert (Lo : aggregateTrustScore (SignalScores.mk 0 0 0 0 0) = 0) by (vm_compute; reflexivity).
  assert (Hi : aggregateTrustScore (SignalScores.mk 100 100 100 100 100) = 100)
    by (vm_compute; reflexivity).
  destruct Hr as (Hc & Ht & Hf & Hh & Hs).
  split; [rewrite <- Lo | rewrite <- Hi]; apply aggregateTrustScore_mono;
    unfold scores_le; cbn [SignalScores.cookies SignalScores.trackers
      SignalScores.fingerprinting SignalScores.headers SignalScores.ssl]; lia.
Qed.

(** Rounding matters: on these scores the exact weighted sum is 69.5, the
    binary64 one 69.49999999999999, which Math.round takes to 69. *)
Example aggregateTrustScore_binary64 :
  aggregateTrustScore (SignalScores.mk 54 54 54 74 100) = 69.
Proof. vm_compute. reflexivity. Qed.

(** TLS sub-score before clamping: 100 for a valid certificate, 30 otherwise. *)
Lemma sslScore_value (s : SSLSignal) : sslScore s = if valid s then 100 else 30.
Proof.
  unfold sslScore. destruct (valid s); [|reflexivity].
  destruct (str_truthy (issuer s)), (issuer s) as [iss|]; cbn [andb]; try reflexivity.
  destruct (existsb (fun ca => includes iss ca) trustedCAs); reflexivity.
Qed.

(** The scores depend on the TLS signal only through its validity flag. *)
Lemma calculateSignalScores_ssl_valid (s1 s2 : PageSignals) (t u : bool) :
  url s1 = url s2 -> cookies s1 = cookies s2 -> trackers s1 = trackers s2 ->
  fingerprinting s1 = fingerprinting s2 -> headers s1 = headers s2 ->
  valid (ssl s1) = valid (ssl s2) ->
  calculateSignalScores s1 t u = calculateSignalScores s2 t u.
Proof.
  intros _ Hc Ht Hf Hh Hv. unfold calculateSignalScores.
  rewrite Hc, Ht, Hf, Hh, !sslScore_value, Hv. reflexivity.
Qed.

Lemma Qle_bool_inject_Z (a z : Z) : Qle_bool (inject_Z a) (inject_Z z) = (a <=? z).
Proof.
  destruct (Qle_bool (inject_Z a) (inject_Z z)) eqn:E; symmetry.
  - apply Qle_bool_iff in E. rewrite <- Zle_Qle in E. apply Z.leb_le. exact E.
  - apply Z.leb_gt. destruct (Z_lt_le_dec z a) as [H|H]; [exact H|].
    rewrite Zle_Qle, <- Qle_bool_iff in H. congruence.
Qed.

(** With trackers already detected, and fingerprinting techniques detected
    or a trusted page (which gets none, without a draw), the only random
    backfill left is the TLS issuer, which the scores ignore. *)
Lemma enhanceSignals_scored_fields (g1 g2 : Rng) (n1 n2 : Z) (s : PageSignals) (t : bool) :
  detected (trackers s) <> [] -> (techniques (fingerprinting s) <> [] \/ t = true) ->
  let e1 := fst (enhanceSignals g1 n1 s t) in
  let e2 := fst (enhanceSignals g2 n2 s t) in
  url e1 = url e2 /\ cookies e1 = cookies e2 /\ trackers e1 = trackers e2 /\
  fingerprinting e1 = fingerprinting e2 /\ headers e1 = headers e2 /\
  valid (ssl e1) = valid (ssl e2).
Proof.
  intros Htr Hfp. unfold enhanceSignals.
  destruct (detected (trackers s)) as [|tr0 trs]; [congruence|].
  destruct (techniques (fingerprinting s)) as [|fp0 fps] eqn:Ef.
  - destruct Hfp as [Hfp | ->]; [congruence|].
    destruct (valid (ssl s) && negb (str_truthy (issuer (ssl s)))) eqn:Ev.
    + apply andb_prop in Ev as [Ev _].
      destruct (random g1), (random g2); cbn. rewrite Ev. repeat split.
    + cbn. repeat split.
  - destruct (valid (ssl s) && negb (str_truthy (issuer (ssl s)))) eqn:Ev.
    + apply andb_prop in Ev as [Ev _].
      destruct (random g1), (random g2); cbn. rewrite Ev. repeat split.
    + cbn. repeat split.
Qed.

Lemma simulateAnalysis_fst (g : Rng) (n1 n2 : Z) (i : string) (s : PageSignals) :
  let d := toLowerCase (domain s) in
  let e := fst (enhanceSignals g n1 s (isTrustedDomain d)) in
  let sc := calculateSignalScores e (isTrustedDomain d) (isSuspiciousPage d (url s)) in
  signalScores (fst (simulateAnalysis g n1 i n2 s)) = sc /\
  trustScore (fst (simulateAnalysis g n1 i n2 s)) = aggregateTrustScore sc /\
  verdict (fst (simulateAnalysis g n1 i n2 s)) =
    getVerdictFromScore (inject_Z (aggregateTrustScore sc)).
Proof.
  cbv zeta. unfold simulateAnalysis.
  destruct (enhanceSignals g n1 s (isTrustedDomain (toLowerCase (domain s)))) as [e g'].
  cbn. repeat split.
Qed.

(* ------------------------------------------------------------------ *)
(** * Claims on the scoring engine *)

(** C1: every category score of calculateSignalScores, for every bundle and
    every reputation (trusted, suspicious or neutral), is an integer in
    [0,100], and so is the rounded weighted sum; in particular the
    trustScore and signalScores of simulateAnalysis lie in [0,100]. *)
Theorem scores_and_trustScore_in_range :
  (forall (s : PageSignals) (isTrusted isSuspicious : bool),
     scores_in_range (calculateSignalScores s isTrusted isSuspicious) /\
     0 <= aggregateTrustScore (calculateSignalScores s isTrusted isSuspicious) <= 100) /\
  (forall (g : Rng) (n1 n2 : Z) (i : string) (s : PageSignals),
     scores_in_range (signalScores (fst (simulateAnalysis g n1 i n2 s))) /\
     0 <= trustScore (fst (simulateAnalysis g n1 i n2 s)) <= 100).
Proof.
  split.
  - intros s t u. split; [apply calculateSignalScores_range|].
    apply aggregateTrustScore_range, calculateSignalScores_range.
  - intros g n1 n2 i s.
    destruct (simulateAnalysis_fst g n1 n2 i s) as (-> & -> & _).
    split; [apply calculateSignalScores_range|].
    apply aggregateTrustScore_range, calculateSignalScores_range.
Qed.

(** C2: on integer scores getVerdictFromScore is the step function with
    thresholds 70 and 40: 'safe' iff score >= 70, 'warning' iff
    40 <= score < 70, 'danger' iff score < 40. *)
Theorem getVerdictFromScore_step (score : Z) :
  (getVerdictFromScore (inject_Z score) = safe <-> 70 <= score) /\
  (getVerdictFromScore (inject_Z score) = warning <-> 40 <= score < 70) /\
  (getVerdictFromScore (inject_Z score) = danger <-> score < 40).
Proof.
  unfold getVerdictFromScore.
  change 70%Q with (inject_Z 70). change 40%Q with (inject_Z 40).
  rewrite !Qle_bool_inject_Z.
  destruct (70 <=? score) eqn:E1, (40 <=? score) eqn:E2;
    rewrite ?Z.leb_le, ?Z.leb_gt in E1, E2;
    repeat split; intros; try discriminate; try reflexivity; lia.
Qed.

Example verdict_boundaries :
  getVerdictFromScore 70 = safe /\ getVerdictFromScore 69 = warning /\
  getVerdictFromScore 40 = warning /\ getVerdictFromScore 39 = danger.
Proof. repeat split. Qed.

(** C3 (counterexample): two runs of simulateAnalysis on the same bundle
    (no trackers, no fingerprinting techniques detected) whose Math.random
    draws differ give different signal scores. *)
Lemma simulateAnalysis_not_deterministic :
  signalScores (fst (simulateAnalysis (Streams.const 0%Q) 0 "id" 0 example_signals)) <>
  signalScores (fst (simulateAnalysis (Streams.const (1 # 2)%Q) 0 "id" 0 example_signals)).
Proof. vm_compute. discriminate. Qed.

(** C3 (amended): when the bundle already lists detected trackers, and
    either lists fingerprinting techniques or belongs to a trusted domain
    (whose backfill is no techniques, without a draw), the only random
    backfill left (the TLS issuer) does not reach the scores: two
    evaluations of simulateAnalysis on the same bundle, whatever their
    random draws, clock readings and ids, give equal SignalScores,
    trustScore and verdict. *)
Theorem simulateAnalysis_deterministic_when_detected
    (g1 g2 : Rng) (a1 a2 b1 b2 : Z) (i1 i2 : string) (s : PageSignals) :
  detected (trackers s) <> [] ->
  (techniques (fingerprinting s) <> [] \/ isTrustedDomain (toLowerCase (domain s)) = true) ->
  signalScores (fst (simulateAnalysis g1 a1 i1 b1 s)) =
    signalScores (fst (simulateAnalysis g2 a2 i2 b2 s)) /\
  trustScore (fst (simulateAnalysis g1 a1 i1 b1 s)) =
    trustScore (fst (simulateAnalysis g2 a2 i2 b2 s)) /\
  verdict (fst (simulateAnalysis g1 a1 i1 b1 s)) =
    verdict (fst (simulateAnalysis g2 a2 i2 b2 s)).
Proof.
  intros Htr Hfp.
  destruct (simulateAnalysis_fst g1 a1 b1 i1 s) as (-> & -> & ->).
  destruct (simulateAnalysis_fst g2 a2 b2 i2 s) as (-> & -> & ->).
  destruct (enhanceSignals_scored_fields g1 g2 a1 a2 s
              (isTrustedDomain (toLowerCase (domain s))) Htr Hfp)
    as (Hu & Hc & Ht & Hf & Hh & Hv).
  rewrite (calculateSignalScores_ssl_valid _ _ _ _ Hu Hc Ht Hf Hh Hv).
  repeat split.
Qed.

Lemma simulateAnalysis_deterministic_when_detected_witness :
  detected (trackers trusted_detected_signals) <> [] /\
  isTrustedDomain (toLowerCase (domain trusted_detected_signals)) = true /\
  signalScores (fst (simulateAnalysis (Streams.const 0%Q) 0 "a" 0 trusted_detected_signals)) =
    signalScores (fst (simulateAnalysis (Streams.const (9 # 10)%Q) 5 "b" 7
                                        trusted_detected_signals)).
Proof.
  assert (H1 : detected (trackers trusted_detected_signals) <> []) by (vm_compute; discriminate).
  assert (H2 : isTrustedDomain (toLowerCase (domain trusted_detected_signals)) = true)
    by (vm_compute; reflexivity).
  split; [exact H1|]. split; [exact H2|].
  exact (proj1 (simulateAnalysis_deterministic_when_detected
                  (Streams.const 0%Q) (Streams.const (9 # 10)%Q) 0 5 0 7 "a" "b"
                  trusted_detected_signals H1 (or_intror H2))).
Defined.

(** C9: the TLS score is 100 for a valid certificate, whatever the issuer,
    and 30 otherwise, with no reputation multiplier. *)
Theorem ssl_score_valid_invalid (s : PageSignals) (isTrusted isSuspicious : bool) :
  SignalScores.ssl (calculateSignalScores s isTrusted isSuspicious) =
    if valid (ssl s) then 100 else 30.
Proof.
  unfold calculateSignalScores. cbn [SignalScores.ssl].
  rewrite sslScore_value. destruct (valid (ssl s)); reflexivity.
Qed.

(** C10: getScoreColor's label agrees with getVerdictFromScore on every
    score: Safe / safe, Caution / warning, Risk / danger. *)
Theorem getScoreColor_agrees_with_verdict (score : Q) :
  (label (getScoreColor score) = "Safe"%string <-> getVerdictFromScore score = safe) /\
  (label (getScoreColor score) = "Caution"%string <-> getVerdictFromScore score = warning) /\
  (label (getScoreColor score) = "Risk"%string <-> getVerdictFromScore score = danger).
Proof.
  unfold getScoreColor, getVerdictFromScore.
  destruct (Qle_bool 70 score), (Qle_bool 40 score); cbn;
    repeat split; intros; (reflexivity || discriminate).
Qed.

(* ------------------------------------------------------------------ *)
(** * Claims on the result cache *)



Lemma js_set_lookup (m : gmap string CachedAnalysis) (k : string) (v : CachedAnalysis) :
  (k <> "__proto__"%string \/ m !! k <> None) -> js_set m k v !! k = Some v.
Proof.
  intros H. unfold js_set. destruct (m !! k) eqn:E; [apply lookup_insert_eq|].
  destruct (String.eqb_spec k "__proto__") as [->|Hk]; [|apply lookup_insert_eq].
  destruct H as [H|H]; congruence.
Qed.

Lemma js_set_lookup_ne (m : gmap string CachedAnalysis) (k k' : string) (v : CachedAnalysis) :
  k' <> k -> js_set m k v !! k' = m !! k'.
Proof.
  intros H. unfold js_set.
  destruct (m !! k); [apply lookup_insert_ne; congruence|].
  destruct (String.eqb k "__proto__"); [reflexivity|apply lookup_insert_ne; congruence].
Qed.

Lemma js_get_own (m : gmap string CachedAnalysis) (k : string) (c : CachedAnalysis) :
  m !! k = Some c -> js_get m k = Some (OwnEntry c).
Proof. intros H. unfold js_get. rewrite H. reflexivity. Qed.

Lemma existsb_eqb_In (d : string) (l : list string) :
  existsb (String.eqb d) l = true <-> In d l.
Proof.
  rewrite existsb_exists. split.
  - intros (x & Hx & E). apply String.eqb_eq in E. subst x. exact Hx.
  - intros H. exists d. split; [exact H|apply String.eqb_refl].
Qed.

Lemma setCachedResult_lookup (st : LocalStore) (c1 c2 : Z) (d : string) (r : AnalysisResult) :
  (d <> "__proto__"%string \/ cachedResults st !! d <> None) ->
  Z.abs c1 <= maxTimeValue ->
  Z.abs (c2 + cacheExpiration (getSettings st) * 60 * 60 * 1000) <= maxTimeValue ->
  cachedResults (setCachedResult st c1 c2 d r) !! d =
    Some (mkCachedAnalysis r c1 (c2 + cacheExpiration (getSettings st) * 60 * 60 * 1000)).
Proof.
  intros Hd H1 H2. unfold setCachedResult, toISOString.
  rewrite (proj2 (Z.leb_le _ _) H1), (proj2 (Z.leb_le _ _) H2).
  apply js_set_lookup, Hd.
Qed.






(* ------------------------------------------------------------------ *)
(** * Claims on the offline queue *)

Lemma StronglySorted_app_last (l : list OfflineQueueItem) (x : OfflineQueueItem) :
  StronglySorted queued_le l -> Forall (fun y => queued_le y x) l ->
  StronglySorted queued_le (l ++ [x]).
Proof.
  induction l as [|a l IH]; intros Hs Hf; cbn.
  - constructor; constructor.
  - inversion Hs as [|? ? Hs' Ha]; subst. inversion Hf as [|? ? Hax Hf']; subst.
    constructor; [apply IH; assumption|].
    apply Forall_app; split; [assumption|]. constructor; [assumption|constructor].
Qed.

Lemma StronglySorted_filter (p : OfflineQueueItem -> bool) (l : list OfflineQueueItem) :
  StronglySorted queued_le l -> StronglySorted queued_le (List.filter p l).
Proof.
  induction l as [|a l IH]; intros Hs; cbn; [constructor|].
  inversion Hs as [|? ? Hs' Ha]; subst.
  destruct (p a); [|apply IH; assumption].
  constructor; [apply IH; assumption|].
  apply List.Forall_forall. intros y Hy. apply filter_In in Hy. exact (proj1 (List.Forall_forall _ _) Ha y (proj1 Hy)).
Qed.

Lemma queued_le_trans : Transitive queued_le.
Proof. intros a b c. unfold queued_le. lia. Qed.

Lemma queue_invariant (b : BgState) (lo : Z) (ops : list QueueOp) :
  StronglySorted queued_le (getOfflineQueue b) ->
  Forall (fun it => queuedAt it <= lo) (getOfflineQueue b) ->
  clocks_from lo ops ->
  StronglySorted queued_le (getOfflineQueue (run_queue_ops b ops)) /\
  (ops <> [] -> offlineQueueSize (extensionStatus (run_queue_ops b ops)) =
                Z.of_nat (length (getOfflineQueue (run_queue_ops b ops)))).
Proof.
  revert b lo. induction ops as [|op ops IH]; intros b lo Hs Hf Hc.
  - split; [exact Hs|]. intros H. congruence.
  - cbn [run_queue_ops fold_left].
    destruct op as [i n s|qid]; cbn [clocks_from] in Hc.
    + destruct Hc as [Hlo Hc].
      assert (Hs' : StronglySorted queued_le
                      (getOfflineQueue (queue_step b (Enqueue i n s)))).
      { cbn. apply StronglySorted_app_last; [exact Hs|].
        revert Hf. apply List.Forall_impl. intros y Hy. unfold queued_le. cbn. lia. }
      assert (Hf' : Forall (fun it => queuedAt it <= n)
                      (getOfflineQueue (queue_step b (Enqueue i n s)))).
      { cbn. apply Forall_app. split.
        - revert Hf. apply List.Forall_impl. intros y Hy. lia.
        - constructor; [cbn; lia|constructor]. }
      destruct ops as [|op' ops'].
      * split; [exact Hs'|]. intros _. reflexivity.
      * destruct (IH _ n Hs' Hf' Hc) as [IH1 IH2].
        split; [exact IH1|]. intros _. apply IH2. discriminate.
    + assert (Hs' : StronglySorted queued_le
                      (getOfflineQueue (queue_step b (Dequeue qid)))).
      { cbn. apply StronglySorted_filter. exact Hs. }
      assert (Hf' : Forall (fun it => queuedAt it <= lo)
                      (getOfflineQueue (queue_step b (Dequeue qid)))).
      { cbn. apply List.Forall_forall. intros y Hy. apply filter_In in Hy. exact (proj1 (List.Forall_forall _ _) Hf y (proj1 Hy)). }
      destruct ops as [|op' ops'].
      * split; [exact Hs'|]. intros _. reflexivity.
      * destruct (IH _ lo Hs' Hf' Hc) as [IH1 IH2].
        split; [exact IH1|]. intros _. apply IH2. discriminate.
Qed.

(** C8: addToOfflineQueue appends the new item (generated id, retryCount 0)
    at the tail; with enqueue clock readings that do not go back, every run
    of enqueues and dequeues keeps the persisted queue ordered by queuedAt,
    and after the last mutation ExtensionStatus.offlineQueueSize equals the
    length of the persisted queue. *)
Theorem offline_queue_fifo_and_size (b : BgState) (lo : Z) (ops : list QueueOp) :
  Sorted queued_le (getOfflineQueue b) ->
  Forall (fun it => queuedAt it <= lo) (getOfflineQueue b) ->
  clocks_from lo ops ->
  (forall (newId : string) (now : Z) (s : PageSignals),
     getOfflineQueue (addToOfflineQueue b newId now s) =
       getOfflineQueue b ++ [mkOfflineQueueItem newId s now 0]) /\
  Sorted queued_le (getOfflineQueue (run_queue_ops b ops)) /\
  (ops <> [] -> offlineQueueSize (extensionStatus (run_queue_ops b ops)) =
                Z.of_nat (length (getOfflineQueue (run_queue_ops b ops)))).
Proof.
  intros Hs Hf Hc.
  apply Sorted_StronglySorted in Hs; [|exact queued_le_trans].
  destruct (queue_invariant b lo ops Hs Hf Hc) as [H1 H2].
  split; [intros; reflexivity|]. split; [|exact H2].
  apply StronglySorted_Sorted. exact H1.
Qed.

Lemma offline_queue_fifo_and_size_witness :
  offlineQueueSize (extensionStatus (run_queue_ops empty_bg example_ops)) =
    Z.of_nat (length (getOfflineQueue (run_queue_ops empty_bg example_ops))).
Proof.
  refine (proj2 (proj2 (offline_queue_fifo_and_size empty_bg 0 example_ops _ _ _)) _).
  - constructor.
  - constructor.
  - cbn. lia.
  - discriminate.
Defined.

(* ------------------------------------------------------------------ *)
(** * Claims on signal collection *)

(** C6 (counterexample): when content-script injection fails, the
    collection promise is rejected (no fallback bundle), ANALYZE_PAGE
    answers with an error and the popup shows its error view. *)
Lemma injection_failure_surfaces_error :
  promises (run_collect example_url_hostname initCollectState injection_failure_trace) !! 1%nat =
    Some (PRejected "Cannot access contents of the page") /\
  option_map popupViewOnResponse
    (analyzeResponseAfterCollect (PRejected "Cannot access contents of the page")) =
    Some view_error.
Proof. split; reflexivity. Qed.

(** C6 (amended): the fallback is the timeout's.  When the 10-second timer
    of a call fires while a resolver is registered for its tab, the
    resolver is removed and the call's pending promise is resolved with
    the TLS-only bundle (ssl.valid iff the URL starts with "https://",
    every other category empty or low).  When content-script injection
    fails, the resolver is removed and the promise is rejected, so the
    requester receives `{ error }`; when the retried message fails the
    promise is rejected as well. *)
Theorem collection_fallback_only_on_timeout (url_hostname : string -> option string)
    (st : CollectState) (rid : nat) (t : Z) (u : string) (now : Z) (e : string) :
  is_Some (pendingSignalCollections st !! t) ->
  promises st !! rid = Some PPending ->
  (pendingSignalCollections (collect_step url_hostname st (Timeout rid t u now)) !! t = None /\
   promises (collect_step url_hostname st (Timeout rid t u now)) !! rid =
     Some (PFulfilled (fallbackSignals url_hostname u now)) /\
   valid (ssl (fallbackSignals url_hostname u now)) = startsWith u "https://" /\
   detected (trackers (fallbackSignals url_hostname u now)) = [] /\
   fingerprinting (fallbackSignals url_hostname u now) = mkFingerprintSignal [] low /\
   headers (fallbackSignals url_hostname u now) = mkHeaderSignal [] [] [] /\
   cookies (fallbackSignals url_hostname u now) = CookieSignal.mk 0 0 []) /\
  (pendingSignalCollections (collect_step url_hostname st (InjectFailed rid t e)) !! t = None /\
   promises (collect_step url_hostname st (InjectFailed rid t e)) !! rid = Some (PRejected e) /\
   analyzeResponseAfterCollect (PRejected e) = Some (RespError e)) /\
  promises (collect_step url_hostname st (RetryFailed rid e)) !! rid = Some (PRejected e).
Proof.
  intros [r Hr] Hp. cbn [collect_step pendingSignalCollections promises].
  unfold settle. rewrite Hr, Hp. cbn [pendingSignalCollections promises].
  rewrite !lookup_delete_eq, !lookup_insert_eq.
  repeat split.
Qed.

Lemma collection_fallback_only_on_timeout_witness :
  promises (collect_step example_url_hostname registered_state (Timeout 1 5 example_url 10000))
    !! 1%nat = Some (PFulfilled (fallbackSignals example_url_hostname example_url 10000)).
Proof.
  refine (proj1 (proj2 (proj1 (collection_fallback_only_on_timeout example_url_hostname
            registered_state 1 5
            example_url 10000 "e" _ _)))).
  - vm_compute. eexists. reflexivity.
  - vm_compute. reflexivity.
Defined.

(** With no waiter registered for the sender's tab, SIGNALS_COLLECTED
    changes nothing. *)
Lemma signals_collected_without_waiter_noop (url_hostname : string -> option string)
    (st : CollectState) (t : Z) (s : PageSignals) :
  pendingSignalCollections st !! t = None ->
  collect_step url_hostname st (SignalsCollected (Some t) s) = st.
Proof.
  intros H. cbn. rewrite H. destruct (negb (t =? 0)); reflexivity.
Qed.

(** C7 (failing input): the first timer finds request 2's resolver under
    tab 5, removes it and resolves request 1; request 2's timer then finds
    nothing.  Request 2 is left pending with no resolver registered, and a
    later SIGNALS_COLLECTED for the tab cannot reach it. *)
Lemma overlapping_collections_leave_dangling_waiter :
  let st := run_collect example_url_hostname initCollectState overlapping_trace in
  promises st !! 2%nat = Some PPending /\
  promises st !! 1%nat =
    Some (PFulfilled (fallbackSignals example_url_hostname example_url 10000)) /\
  pendingSignalCollections st !! 5 = None /\
  (forall s : PageSignals,
     collect_step example_url_hostname st (SignalsCollected (Some 5) s) = st).
Proof.
  cbv zeta. split; [reflexivity|]. split; [reflexivity|].
  assert (H : pendingSignalCollections
                (run_collect example_url_hostname initCollectState overlapping_trace) !! 5
              = None) by reflexivity.
  split; [exact H|]. intros s. apply signals_collected_without_waiter_noop. exact H.
Qed.

(* ------------------------------------------------------------------ *)
(** * utils.ts and simulateExplanation *)

Lemma str_app_assoc (a b c : string) : ((a ++ b) ++ c = a ++ (b ++ c))%string.
Proof. induction a as [|x a IH]; [reflexivity|]. exact (f_equal (String x) IH). Qed.

Lemma str_length_app (a b : string) :
  String.length (a ++ b) = (String.length a + String.length b)%nat.
Proof. induction a as [|x a IH]; [reflexivity|]. exact (f_equal S IH). Qed.

Lemma substring0_length (n : nat) (s : string) :
  String.length (String.substring 0 n s) = Nat.min n (String.length s).
Proof.
  revert n. induction s as [|c s IH]; intros [|n]; cbn; try reflexivity.
  rewrite IH. reflexivity.
Qed.

Lemma prefix_app (p rest : string) : String.prefix p (p ++ rest) = true.
Proof.
  induction p as [|a p IH]; [destruct rest; reflexivity|].
  change (String.prefix (String a p) (String a (p ++ rest)) = true).
  simpl. destruct (ascii_dec a a); [exact IH|congruence].
Qed.

Lemma str_slice0_length (s : string) (e : Z) :
  Z.of_nat (String.length (str_slice0 s e)) =
    (if e <? 0 then Z.max (Z.of_nat (String.length s) + e) 0
     else Z.min e (Z.of_nat (String.length s))).
Proof.
  unfold str_slice0. rewrite substring0_length.
  destruct (Z.ltb_spec e 0); lia.
Qed.

(** truncate with maxLength >= 3 never returns more than maxLength
    characters, and returns a text that already fits unchanged. *)
Theorem truncate_fits (text : string) (maxLength : Z) :
  3 <= maxLength ->
  Z.of_nat (String.length (truncate text maxLength)) <= maxLength /\
  (Z.of_nat (String.length text) <= maxLength -> truncate text maxLength = text).
Proof.
  intros Hm. unfold truncate.
  destruct (Z.leb_spec (Z.of_nat (String.length text)) maxLength) as [Hle|Hgt].
  - split; [exact Hle|reflexivity].
  - split; [|lia].
    rewrite str_length_app, Nat2Z.inj_add, str_slice0_length. cbn.
    destruct (Z.ltb_spec (maxLength - 3) 0); lia.
Qed.

Lemma truncate_fits_witness :
  Z.of_nat (String.length (truncate "a long page title" 10)) <= 10.
Proof. exact (proj1 (truncate_fits "a long page title" 10 ltac:(lia))). Defined.

(** With maxLength below 3 the end index maxLength - 3 of slice is
    negative and counts from the end: a text longer than maxLength (and
    with length + maxLength >= 3) comes back with maxLength characters
    more than it had, not fewer. *)
Theorem truncate_small_limit_grows (text : string) (maxLength : Z) :
  0 <= maxLength < 3 ->
  maxLength < Z.of_nat (String.length text) ->
  3 <= Z.of_nat (String.length text) + maxLength ->
  Z.of_nat (String.length (truncate text maxLength)) =
    Z.of_nat (String.length text) + maxLength.
Proof.
  intros Hm Hlt H3. unfold truncate.
  destruct (Z.leb_spec (Z.of_nat (String.length text)) maxLength); [lia|].
  rewrite str_length_app, Nat2Z.inj_add, str_slice0_length. cbn.
  destruct (Z.ltb_spec (maxLength - 3) 0); lia.
Qed.

Lemma truncate_small_limit_grows_witness :
  truncate "abcdefgh" 2 = "abcdefg..."%string /\
  Z.of_nat (String.length (truncate "abcdefgh" 2)) = 8 + 2.
Proof.
  split; [reflexivity|].
  exact (truncate_small_limit_grows "abcdefgh" 2 ltac:(lia) ltac:(cbn; lia) ltac:(cbn; lia)).
Defined.

(** isAnalyzableUrl rejects the empty URL and every URL that starts with
    one of the internal protocols, and accepts every http:// and https://
    URL. *)
Theorem isAnalyzableUrl_protocols :
  isAnalyzableUrl "" = false /\
  (forall (p rest : string), In p nonAnalyzableProtocols ->
     isAnalyzableUrl (p ++ rest) = false) /\
  (forall rest : string,
     isAnalyzableUrl ("https://" ++ rest) = true /\
     isAnalyzableUrl ("http://" ++ rest) = true).
Proof.
  split; [reflexivity|]. split.
  - intros p rest Hin. unfold isAnalyzableUrl.
    destruct (String.eqb_spec (p ++ rest) ""); [reflexivity|].
    apply Bool.negb_false_iff, List.existsb_exists.
    exists p. split; [exact Hin|apply prefix_app].
  - intros rest. split; reflexivity.
Qed.

Lemma isAnalyzableUrl_protocols_witness :
  isAnalyzableUrl ("chrome://" ++ "settings") = false.
Proof.
  exact (proj1 (proj2 isAnalyzableUrl_protocols) "chrome://" "settings"
           ltac:(cbn; left; reflexivity)).
Defined.

(** formatRelativeTime: a difference under one minute, including a date
    in the future, is 'Just now'; otherwise the minutes, hours and days it
    prints are in 1..59, 1..23 and 1..6, and from seven days on it prints
    the date. *)
Theorem formatRelativeTime_buckets (date now : Z) :
  (now - date < 60000 -> formatRelativeTime date now = JustNow) /\
  (forall n, formatRelativeTime date now = MinutesAgo n -> 1 <= n <= 59) /\
  (forall n, formatRelativeTime date now = HoursAgo n -> 1 <= n <= 23) /\
  (forall n, formatRelativeTime date now = DaysAgo n -> 1 <= n <= 6) /\
  (forall d, formatRelativeTime date now = LocaleDate d -> 7 * 24 * 3600000 <= now - date).
Proof.
  unfold formatRelativeTime.
  set (ds := (now - date) / 1000).
  assert (Hds : 1000 * ds <= now - date < 1000 * ds + 1000)
    by (subst ds; Z.div_mod_to_equations; lia).
  set (dm := ds / 60). assert (Hdm : 60 * dm <= ds < 60 * dm + 60)
    by (subst dm; Z.div_mod_to_equations; lia).
  set (dh := dm / 60). assert (Hdh : 60 * dh <= dm < 60 * dh + 60)
    by (subst dh; Z.div_mod_to_equations; lia).
  set (dd := dh / 24). assert (Hdd : 24 * dd <= dh < 24 * dd + 24)
    by (subst dd; Z.div_mod_to_equations; lia).
  clearbody ds dm dh dd.
  destruct (Z.ltb_spec ds 60); [|destruct (Z.ltb_spec dm 60);
    [|destruct (Z.ltb_spec dh 24); [|destruct (Z.ltb_spec dd 7)]]];
    repeat split; intros; try discriminate; try lia;
    match goal with H : _ = _ |- _ => injection H as <- | _ => idtac end; lia.
Qed.

Lemma formatRelativeTime_buckets_witness :
  formatRelativeTime 100000 130000 = JustNow.
Proof. exact (proj1 (formatRelativeTime_buckets 100000 130000) ltac:(lia)). Defined.

(** getVerdictFromScore is monotone: a higher score never gets a worse
    verdict. *)
Theorem getVerdictFromScore_monotone (a b : Q) :
  (a <= b)%Q -> verdict_rank (getVerdictFromScore a) <= verdict_rank (getVerdictFromScore b).
Proof.
  intros Hab. unfold getVerdictFromScore.
  destruct (Qle_bool 70 a) eqn:A1, (Qle_bool 40 a) eqn:A2,
           (Qle_bool 70 b) eqn:B1, (Qle_bool 40 b) eqn:B2; cbn; try lia;
  repeat match goal with
         | H : Qle_bool _ _ = true |- _ => apply Qle_bool_iff in H
         | H : Qle_bool ?x ?y = false |- _ =>
             assert (~ (x <= y)%Q) by (rewrite <- Qle_bool_iff; congruence); clear H
         end; exfalso; lra.
Qed.

Lemma getVerdictFromScore_monotone_witness :
  verdict_rank (getVerdictFromScore 55) <= verdict_rank (getVerdictFromScore 72).
Proof. apply getVerdictFromScore_monotone. vm_compute. discriminate. Defined.

Lemma concat_snoc (sep : string) (l : list string) (z : string) :
  l <> [] -> String.concat sep (app l [z]) = (String.concat sep l ++ sep ++ z)%string.
Proof.
  induction l as [|x l IH]; intros H; [congruence|].
  destruct l as [|y l].
  - reflexivity.
  - change (String.concat sep (app (x :: y :: l) [z]))
      with (x ++ sep ++ String.concat sep (app (y :: l) [z]))%string.
    rewrite IH by discriminate.
    change (String.concat sep (x :: y :: l))
      with (x ++ sep ++ String.concat sep (y :: l))%string.
    rewrite !str_app_assoc. reflexivity.
Qed.

(** simulateExplanation always opens with the sentence fixed by the
    verdict (naming the domain) and closes with the line
    "Overall trust score: N/100.", the parts joined by spaces. *)
Theorem simulateExplanation_frame (r : AnalysisResult) :
  exists middle : string,
    simulateExplanation r =
      (explanationOpening (res_domain r) (verdict r) ++ " " ++ middle ++ " " ++
       explanationSummary (trustScore r))%string.
Proof.
  unfold simulateExplanation, js_join.
  match goal with
  | |- exists m, String.concat " " (app [?a; ?b] (app ?h (app ?t (app ?c (app ?f [?z]))))) = _ =>
      exists (String.concat " " (b :: app h (app t (app c f))));
      replace (app [a; b] (app h (app t (app c (app f [z])))))
        with (app (a :: b :: app h (app t (app c f))) [z])
        by (cbn; rewrite <- !app_assoc; reflexivity)
  end.
  rewrite concat_snoc by discriminate.
  cbn [String.concat]. rewrite !str_app_assoc. reflexivity.
Qed.

(* ------------------------------------------------------------------ *)
(** * Reputation and backfill in simulation.ts *)

Lemma scaled_score_mono (x m1 m2 : Q) :
  (0 <= m2)%Q -> (m2 <= m1)%Q ->
  clamp100 (js_round (fl (x * m2))) <= clamp100 (js_round (fl (x * m1))).
Proof.
  intros H0 H12. destruct (Qlt_le_dec x 0) as [Hx|Hx].
  - assert (Hm : (fl (x * m2) <= 0)%Q).
    { apply fl_nonpos.
      pose proof (Qmult_le_compat_r x 0 m2 (Qlt_le_weak _ _ Hx) H0) as Hp.
      rewrite Qmult_0_l in Hp. exact Hp. }
    apply js_round_mono in Hm. change (js_round 0) with 0 in Hm.
    unfold clamp100. lia.
  - assert (Hm : (fl (x * m2) <= fl (x * m1))%Q).
    { apply fl_mono. rewrite (Qmult_comm x m2), (Qmult_comm x m1). apply Qmult_le_compat_r; lra. }
    apply js_round_mono in Hm. unfold clamp100. lia.
Qed.

(** Reputation only ever helps: for the same bundle, every category score
    and the aggregate trust score of a suspicious page are at most those
    of a neutral page, which are at most those of a trusted page (a
    trusted page ignores the suspicious flag). *)
Theorem reputation_monotone (s : PageSignals) (susp : bool) :
  let suspicious := calculateSignalScores s false true in
  let neutral := calculateSignalScores s false false in
  let trusted := calculateSignalScores s true susp in
  scores_le suspicious neutral /\ scores_le neutral trusted /\
  aggregateTrustScore suspicious <= aggregateTrustScore neutral <=
    aggregateTrustScore trusted.
Proof.
  cbv zeta.
  assert (Hsn : scores_le (calculateSignalScores s false true) (calculateSignalScores s false false)).
  { unfold scores_le, calculateSignalScores, baseMultiplier; cbn [SignalScores.cookies
      SignalScores.trackers SignalScores.fingerprinting SignalScores.headers SignalScores.ssl].
    repeat split; try lia; apply scaled_score_mono; qcheck. }
  assert (Hnt : scores_le (calculateSignalScores s false false) (calculateSignalScores s true susp)).
  { unfold scores_le, calculateSignalScores, baseMultiplier; cbn [SignalScores.cookies
      SignalScores.trackers SignalScores.fingerprinting SignalScores.headers SignalScores.ssl].
    repeat split; try lia; apply scaled_score_mono; qcheck. }
  split; [exact Hsn|]. split; [exact Hnt|].
  split; apply aggregateTrustScore_mono; assumption.
Qed.

(** enhanceSignals never touches what the collector measured: url, domain,
    timestamp, cookies and TLS validity are kept, and detected trackers,
    detected fingerprinting techniques, reported headers and a reported
    certificate issuer are left as they are. *)
Theorem enhanceSignals_keeps_collected (g : Rng) (now : Z) (s : PageSignals) (t : bool) :
  let e := fst (enhanceSignals g now s t) in
  url e = url s /\ domain e = domain s /\ timestamp e = timestamp s /\
  cookies e = cookies s /\ valid (ssl e) = valid (ssl s) /\
  (detected (trackers s) <> [] -> trackers e = trackers s) /\
  (techniques (fingerprinting s) <> [] -> fingerprinting e = fingerprinting s) /\
  (present (headers s) <> [] \/ missing (headers s) <> [] -> headers e = headers s) /\
  (str_truthy (issuer (ssl s)) = true -> ssl e = ssl s).
Proof.
  cbv zeta. unfold enhanceSignals.
  destruct (detected (trackers s)) as [|d0 ds] eqn:Ed;
  destruct (techniques (fingerprinting s)) as [|f0 fs] eqn:Ef;
  destruct (valid (ssl s)) eqn:Ev;
  destruct (str_truthy (issuer (ssl s))) eqn:Ei; destruct t;
  unfold random; cbn; rewrite ?Ev;
  (repeat split; try congruence);
  try (intros [H|H]; [|]; destruct (present (headers s)), (missing (headers s)); congruence);
  try (intros H; destruct (present (headers s)), (missing (headers s)); congruence).
Qed.

(** With Math.random() draws in [0,1), the backfill of enhanceSignals
    stays in its ranges: a trusted page gets at most 2 simulated trackers
    and no fingerprinting, any other page 2 to 6 trackers and either
    Canvas (risk medium) or Canvas and WebGL (risk high); a valid
    certificate without issuer always gets one of the four listed issuers. *)
Theorem enhanceSignals_backfill_ranges (g : Rng) (now : Z) (s : PageSignals) (t : bool) :
  draws_in_unit g ->
  let e := fst (enhanceSignals g now s t) in
  (detected (trackers s) = [] ->
     if t then (length (detected (trackers e)) <= 2)%nat
     else (2 <= length (detected (trackers e)) <= 6)%nat) /\
  (techniques (fingerprinting s) = [] ->
     if t then fingerprinting e = mkFingerprintSignal [] low
     else fingerprinting e = mkFingerprintSignal ["Canvas"]%string medium \/
          fingerprinting e = mkFingerprintSignal ["Canvas"; "WebGL"]%string high) /\
  (valid (ssl s) = true -> str_truthy (issuer (ssl s)) = false ->
     exists iss, issuer (ssl e) = Some iss /\
       In iss ["Let's Encrypt"; "DigiCert Inc"; "GlobalSign"; "Comodo CA"]%string).
Proof.
  intros Hg. cbv zeta.
  assert (D : forall n,
    0 <= Qfloor (fl (Str_nth n g * 2)) < 2 /\ 0 <= Qfloor (fl (Str_nth n g * 3)) < 3 /\
    0 <= Qfloor (fl (Str_nth n g * 4)) < 4 /\ 0 <= Qfloor (fl (Str_nth n g * 5)) < 5).
  { intros n. destruct (Hg n) as (Hd & H0 & H1).
    repeat split; first [apply (draw_floor_fl _ 2)|apply (draw_floor_fl _ 3)|
                         apply (draw_floor_fl _ 4)|apply (draw_floor_fl _ 5)];
      first [assumption | lia | qcheck]. }
  pose proof (D 0%nat) as D0. pose proof (D 1%nat) as D1. pose proof (D 2%nat) as D2.
  unfold Str_nth in D0, D1, D2. cbn [Str_nth_tl] in D0, D1, D2.
  unfold enhanceSignals, random.
  destruct (detected (trackers s)) as [|d0 ds] eqn:Ed;
  destruct (techniques (fingerprinting s)) as [|f0 fs] eqn:Ef;
  destruct (valid (ssl s)) eqn:Ev;
  destruct (str_truthy (issuer (ssl s))) eqn:Ei; destruct t; cbn -[Qfloor];
  (split; [intros Hd; try discriminate|split; [intros Hf; try discriminate|
            intros Hv Hi; try discriminate]]);
  try change (inject_Z (Z.of_nat 4)) with 4%Q;
  repeat match goal with
  | |- context [Qfloor (fl (Streams.hd ?x * ?k))] =>
      let n := fresh "n" in
      set (n := Qfloor (fl (Streams.hd x * k))) in *;
      assert (Hn : n = 0 \/ n = 1 \/ n = 2 \/ n = 3 \/ n = 4) by lia;
      clearbody n; destruct Hn as [-> | [-> | [-> | [-> | ->]]]]; try lia
  end;
  try (vm_compute; lia); cbn -[Qfloor]; eauto 10 using in_eq, in_cons.
Qed.

Lemma enhanceSignals_backfill_ranges_witness :
  draws_in_unit (Streams.const (1 # 2)) /\
  (2 <= length (detected (trackers (fst (enhanceSignals (Streams.const (1 # 2)) 0
                                          example_signals false)))) <= 6)%nat.
Proof.
  assert (H : draws_in_unit (Streams.const (1 # 2))).
  { intros n.
    assert (E : Str_nth n (Streams.const (1 # 2)) = (1 # 2)%Q)
      by (induction n as [|n IH]; [reflexivity|exact IH]).
    rewrite E. split; [vm_compute; reflexivity|]. split; qcheck. }
  split; [exact H|].
  exact (proj1 (enhanceSignals_backfill_ranges (Streams.const (1 # 2)) 0 example_signals false H)
           eq_refl).
Defined.

Lemma substring_app_r (a b : string) (n : nat) :
  String.substring (String.length a) n (a ++ b) = String.substring 0 n b.
Proof. induction a as [|c a IH]; [reflexivity|]. exact IH. Qed.

Lemma substring0_full (b : string) : String.substring 0 (String.length b) b = b.
Proof. induction b as [|c b IH]; [reflexivity|]. cbn. rewrite IH. reflexivity. Qed.

Lemma endsWith_app (a b : string) : endsWith (a ++ b) b = true.
Proof.
  unfold endsWith. rewrite str_length_app.
  replace (String.length a + String.length b - String.length b)%nat with (String.length a) by lia.
  rewrite substring_app_r, substring0_full, String.eqb_refl.
  apply andb_true_intro. split; [apply Nat.leb_le; lia|reflexivity].
Qed.

(** A listed trusted domain is trusted, and so is every name that ends
    in "." followed by a listed domain with its "www." removed: any
    subdomain of a trusted site is trusted. *)
Theorem isTrustedDomain_subdomains (td p : string) :
  In td TRUSTED_DOMAINS ->
  isTrustedDomain td = true /\
  isTrustedDomain (p ++ "." ++ replace_first "www." "" td) = true.
Proof.
  intros Hin. unfold isTrustedDomain. split; apply List.existsb_exists; exists td;
    (split; [exact Hin|]).
  - rewrite String.eqb_refl. reflexivity.
  - rewrite endsWith_app. apply orb_true_r.
Qed.

Lemma isTrustedDomain_subdomains_witness :
  isTrustedDomain ("docs.github.com") = true.
Proof.
  exact (proj2 (isTrustedDomain_subdomains "www.github.com" "docs"
                  ltac:(cbn; tauto))).
Defined.

Lemma toLowerCase_app (a b : string) : toLowerCase (a ++ b) = (toLowerCase a ++ toLowerCase b)%string.
Proof. induction a as [|c a IH]; [reflexivity|]. exact (f_equal (String (lower_ascii c)) IH). Qed.

Lemma includes_prefix (s p : string) : String.prefix p s = true -> includes s p = true.
Proof. intros H. destruct s; cbn [includes]; rewrite H; reflexivity. Qed.

Lemma includes_app (a p b : string) : includes (a ++ p ++ b) p = true.
Proof.
  induction a as [|c a IH].
  - change (includes (p ++ b)%string p = true). apply includes_prefix. apply prefix_app.
  - change (String.prefix p (String c (a ++ p ++ b)) || includes (a ++ p ++ b)%string p = true).
    rewrite IH. apply orb_true_r.
Qed.

(** A URL that contains one of the suspicious patterns, in any letter
    case, makes the page suspicious, whatever its domain. *)
Theorem isSuspiciousPage_url_pattern (d a q b p : string) :
  In p SUSPICIOUS_PATTERNS -> toLowerCase q = p ->
  isSuspiciousPage d (a ++ q ++ b) = true.
Proof.
  intros Hin Hq. unfold isSuspiciousPage. apply List.existsb_exists. exists p.
  split; [exact Hin|].
  rewrite !toLowerCase_app, Hq, includes_app. apply orb_true_r.
Qed.

Lemma isSuspiciousPage_url_pattern_witness :
  isSuspiciousPage "example.org" ("https://example.org/" ++ "CASINO" ++ "-night") = true.
Proof.
  exact (isSuspiciousPage_url_pattern "example.org" "https://example.org/" "CASINO" "-night"
           "casino" ltac:(cbn; tauto) eq_refl).
Defined.

(* ------------------------------------------------------------------ *)
(** * Background worker: cache writes, analysis and message handlers *)



Lemma analyzeSignals_unfold (w : WorkerState) (rd : AnalyzeReadings) (s : PageSignals) (t : Z) :
  let r := fst (simulateAnalysis (Streams.tl (rd_rng rd)) (rd_enhanceNow rd) (rd_newId rd)
                                 (rd_analyzedAt rd) s) in
  analyzeSignals w rd s t =
    (r, mkWorkerState
          (setCachedResult (w_local w) (rd_cachedAt rd) (rd_expiryNow rd) (domain s) r)
          (<[t := r]> (w_session w))
          (updateStatus_pendingAnalyses
             (updateStatus_pendingAnalyses (w_status w) (pendingAnalyses (w_status w) + 1))
             (pendingAnalyses (w_status w) + 1 - 1))).
Proof.
  cbv zeta. unfold analyzeSignals, random.
  destruct (simulateAnalysis (Streams.tl (rd_rng rd)) (rd_enhanceNow rd) (rd_newId rd)
                             (rd_analyzedAt rd) s).
  reflexivity.
Qed.

(** analyzeSignals stores its result for the tab in the session (other
    tabs untouched), caches it under the bundle's domain when that is not
    "__proto__" (with dates in the JS range, expiring cacheExpiration hours
    after the expiry clock reading), returns a result for the bundle's url
    and domain with a pending explanation, and leaves pendingAnalyses as
    it found it. *)
Theorem analyzeSignals_effects (w : WorkerState) (rd : AnalyzeReadings) (s : PageSignals)
    (tabId : Z) :
  let h := cacheExpiration (getSettings (w_local w)) in
  domain s <> "__proto__"%string ->
  Z.abs (rd_cachedAt rd) <= maxTimeValue ->
  Z.abs (rd_expiryNow rd + h * 60 * 60 * 1000) <= maxTimeValue ->
  let '(r, w1) := analyzeSignals w rd s tabId in
  w_session w1 !! tabId = Some r /\
  (forall t, t <> tabId -> w_session w1 !! t = w_session w !! t) /\
  cachedResults (w_local w1) !! domain s =
    Some (mkCachedAnalysis r (rd_cachedAt rd) (rd_expiryNow rd + h * 60 * 60 * 1000)) /\
  res_url r = url s /\ res_domain r = domain s /\
  explanation r = Some (mkExplanationStatus pending None None None) /\
  pendingAnalyses (w_status w1) = pendingAnalyses (w_status w).
Proof.
  cbv zeta. intros Hd0 H1 H2. rewrite analyzeSignals_unfold. cbn zeta.
  set (r := fst (simulateAnalysis (Streams.tl (rd_rng rd)) (rd_enhanceNow rd) (rd_newId rd)
                                  (rd_analyzedAt rd) s)).
  assert (Hr : res_url r = url s /\ res_domain r = domain s /\
               explanation r = Some (mkExplanationStatus pending None None None)).
  { subst r. unfold simulateAnalysis.
    destruct (enhanceSignals _ _ _ _). repeat split. }
  cbn [w_session w_local w_status pendingAnalyses updateStatus_pendingAnalyses].
  split; [apply lookup_insert_eq|].
  split; [intros t Ht; apply lookup_insert_ne; congruence|].
  split; [apply setCachedResult_lookup; [left|..]; assumption|].
  destruct Hr as (Hu & Hd & He). repeat split; try assumption. lia.
Qed.



Lemma analyzeSignals_effects_witness :
  w_session (snd (analyzeSignals example_worker example_readings example_signals 7)) !! 7 =
    Some (fst (analyzeSignals example_worker example_readings example_signals 7)).
Proof.
  pose proof (analyzeSignals_effects example_worker example_readings example_signals 7
                ltac:(cbn; discriminate)
                ltac:(cbn; unfold maxTimeValue; lia) ltac:(cbn; unfold maxTimeValue; lia)) as H.
  destruct (analyzeSignals example_worker example_readings example_signals 7) as [r w1].
  exact (proj1 H).
Defined.

Lemma getCachedResult_settings (st : LocalStore) (d : string) (n : Z) :
  getSettings (snd (getCachedResult st d n)) = getSettings st.
Proof.
  unfold getCachedResult.
  destruct (js_get (cachedResults st) d) as [[c|k]|]; [|reflexivity|reflexivity].
  destruct (expiresAt c <? n); reflexivity.
Qed.

(** ANALYZE_PAGE round trip: when a request misses the cache and analyses
    a collected bundle whose domain is the hostname of the requested URL,
    a later ANALYZE_PAGE for that URL, up to the entry's expiry, is
    answered from the cache (fromCache = true) with the same result,
    without collecting or analysing again and without changing any state. *)
Theorem analyze_page_cache_roundtrip (url_hostname : string -> option string)
    (w : WorkerState) (u : string) (tabId n1 : Z)
    (s : PageSignals) (rd : AnalyzeReadings) (r : AnalysisResult) (w1 : WorkerState) :
  let h := cacheExpiration (getSettings (w_local w)) in
  cachedResults (w_local w) !! "__proto__"%string = None ->
  domain s = getDomainFromUrl url_hostname u ->
  Z.abs (rd_cachedAt rd) <= maxTimeValue ->
  Z.abs (rd_expiryNow rd + h * 60 * 60 * 1000) <= maxTimeValue ->
  handleAnalyzePage url_hostname w u tabId n1 (PFulfilled s) rd =
    (Some (ReplyAnalysis r false), w1) ->
  forall (n2 : Z) (collected : PromiseState) (rd' : AnalyzeReadings),
    n2 <= rd_expiryNow rd + h * 60 * 60 * 1000 ->
    handleAnalyzePage url_hostname w1 u tabId n2 collected rd' =
      (Some (ReplyAnalysis r true), w1).
Proof.
  cbv zeta. intros Hp Hd H1 H2 Hfirst n2 c rd' Hn2.
  unfold handleAnalyzePage in Hfirst.
  destruct (getCachedResult (w_local w) (getDomainFromUrl url_hostname u) n1)
    as [cached st] eqn:Eg.
  assert (Hs : getSettings st = getSettings (w_local w)).
  { change st with (snd (cached, st)). rewrite <- Eg. apply getCachedResult_settings. }
  destruct cached as [[c0|k0]|]; [congruence|congruence|].
  assert (Hd1 : domain s <> "__proto__"%string).
  { rewrite Hd. intros E. rewrite E in Eg.
    unfold getCachedResult, js_get in Eg. rewrite Hp in Eg. discriminate Eg. }
  rewrite analyzeSignals_unfold in Hfirst. cbn zeta in Hfirst.
  injection Hfirst as Hr Hw. subst r w1.
  unfold handleAnalyzePage, getCachedResult. cbn [w_local with_local].
  rewrite <- Hd.
  erewrite js_get_own
    by (apply setCachedResult_lookup; cbn [w_local with_local];
        [left; exact Hd1 | assumption | rewrite Hs; assumption]).
  cbn [w_local expiresAt result]. rewrite Hs.
  destruct (Z.ltb_spec (rd_expiryNow rd + cacheExpiration (getSettings (w_local w)) * 60 * 60 * 1000) n2);
    [lia|].
  reflexivity.
Qed.

Lemma analyze_page_cache_roundtrip_witness :
  let p := handleAnalyzePage example_url_hostname example_worker example_url 5 0
             (PFulfilled (fallbackSignals example_url_hostname example_url 10000))
             example_readings in
  exists r, fst p = Some (ReplyAnalysis r false) /\
    handleAnalyzePage example_url_hostname (snd p) example_url 5 1000 PPending
      example_readings =
      (Some (ReplyAnalysis r true), snd p).
Proof.
  cbv zeta.
  remember (handleAnalyzePage example_url_hostname example_worker example_url 5 0
              (PFulfilled (fallbackSignals example_url_hostname example_url 10000))
              example_readings) as p eqn:E.
  destruct p as [o w1]. pose proof E as E'. vm_compute in E'.
  injection E' as Eo _. subst o.
  eexists. split; [reflexivity|]. cbn [snd].
  apply (analyze_page_cache_roundtrip example_url_hostname example_worker example_url 5 0
           (fallbackSignals example_url_hostname example_url 10000) example_readings _ w1);
    [reflexivity | reflexivity | cbn; unfold maxTimeValue; lia | cbn; unfold maxTimeValue; lia
    | symmetry; exact E | cbn; lia].
Defined.

(** generateExplanationAsync writes the explanation built from its
    argument into whatever live entry is cached under the argument's
    domain at that time: the stored result keeps that entry's result
    (which need not be the argument) with its explanation set to complete,
    and the entry gets fresh cachedAt and expiresAt, so the explanation
    extends the entry's lifetime. *)
Theorem generateExplanationAsync_attaches (st : LocalStore) (rd : ExplainReadings)
    (r : AnalysisResult) (c : CachedAnalysis) :
  let h := cacheExpiration (getSettings st) in
  cachedResults st !! res_domain r = Some c ->
  ex_lookupNow rd <= expiresAt c ->
  Z.abs (ex_generatedAt rd) <= maxTimeValue ->
  Z.abs (ex_cachedAt rd) <= maxTimeValue ->
  Z.abs (ex_expiryNow rd + h * 60 * 60 * 1000) <= maxTimeValue ->
  cachedResults (generateExplanationAsync st rd r) !! res_domain r =
    Some (mkCachedAnalysis
            (set_explanation (result c)
               (mkExplanationStatus complete (Some (simulateExplanation r))
                                    (Some (ex_generatedAt rd)) None))
            (ex_cachedAt rd) (ex_expiryNow rd + h * 60 * 60 * 1000)).
Proof.
  cbv zeta. intros Hc Hn Hg H1 H2.
  unfold generateExplanationAsync, getCachedResult. rewrite (js_get_own _ _ _ Hc).
  destruct (Z.ltb_spec (expiresAt c) (ex_lookupNow rd)); [lia|].
  unfold toISOString at 1. rewrite (proj2 (Z.leb_le _ _) Hg).
  apply setCachedResult_lookup; [right; rewrite Hc; discriminate|assumption|assumption].
Qed.


Lemma generateExplanationAsync_attaches_witness :
  cachedResults (generateExplanationAsync expired_store (mkExplainReadings 50 50 60 60) older_result)
    !! "example.com"%string =
  Some (mkCachedAnalysis
          (set_explanation example_result
             (mkExplanationStatus complete (Some (simulateExplanation older_result)) (Some 50) None))
          60 (60 + 24 * 60 * 60 * 1000)).
Proof.
  exact (generateExplanationAsync_attaches expired_store (mkExplainReadings 50 50 60 60)
           older_result (mkCachedAnalysis example_result 0 100) eq_refl
           ltac:(cbn; lia) ltac:(cbn; unfold maxTimeValue; lia)
           ltac:(cbn; unfold maxTimeValue; lia) ltac:(cbn; unfold maxTimeValue; lia)).
Defined.

(** generateExplanationAsync never brings back an entry: when the cache
    holds nothing under the result's domain (it was cleared, or never
    written) the store is left unchanged, and when the entry has expired
    it is removed. *)
Theorem generateExplanationAsync_no_resurrect (st : LocalStore) (rd : ExplainReadings)
    (r : AnalysisResult) :
  (cachedResults st !! res_domain r = None -> generateExplanationAsync st rd r = st) /\
  (forall c, cachedResults st !! res_domain r = Some c -> expiresAt c < ex_lookupNow rd ->
     cachedResults (generateExplanationAsync st rd r) !! res_domain r = None).
Proof.
  unfold generateExplanationAsync, getCachedResult. split.
  - intros H. unfold js_get. rewrite H.
    destruct (existsb (String.eqb (res_domain r)) objectPrototypeKeys); reflexivity.
  - intros c H Hlt. rewrite (js_get_own _ _ _ H).
    destruct (Z.ltb_spec (expiresAt c) (ex_lookupNow rd)); [|lia].
    cbn. apply lookup_delete_eq.
Qed.

Lemma generateExplanationAsync_no_resurrect_witness :
  generateExplanationAsync example_store (mkExplainReadings 0 0 0 0) example_result = example_store.
Proof.
  exact (proj1 (generateExplanationAsync_no_resurrect example_store (mkExplainReadings 0 0 0 0)
                  example_result) eq_refl).
Defined.

(** CLEAR_CACHE empties the cache: a following GET_CACHED_RESULT answers
    null for every domain and changes nothing, while the offline queue,
    the settings, the session results and the status survive. *)
Theorem clear_cache_then_get (w : WorkerState) (d : string) (now : Z) :
  let w1 := snd (handleClearCache w) in
  fst (handleClearCache w) = ReplySuccess /\
  handleGetCachedResult w1 d now = (ReplyCached None, w1) /\
  offlineQueue (w_local w1) = offlineQueue (w_local w) /\
  settings (w_local w1) = settings (w_local w) /\
  w_session w1 = w_session w /\ w_status w1 = w_status w.
Proof.
  cbv zeta. repeat split.
  unfold handleGetCachedResult, getCachedResult, js_get. cbn [handleClearCache snd w_local
    with_local cachedResults with_cachedResults].
  rewrite lookup_empty.
  destruct (existsb (String.eqb d) objectPrototypeKeys); reflexivity.
Qed.

Lemma setCachedResult_no_own_proto (st : LocalStore) (c1 c2 : Z) (d : string) (r : AnalysisResult) :
  no_own_proto st -> no_own_proto (setCachedResult st c1 c2 d r).
Proof.
  unfold no_own_proto, setCachedResult. intros H.
  repeat case_match; cbn [cachedResults with_cachedResults]; try exact H.
  destruct (String.eq_dec d "__proto__") as [->|Hd].
  - unfold js_set. rewrite H. exact H.
  - rewrite js_set_lookup_ne by congruence. exact H.
Qed.

Lemma getCachedResult_no_own_proto (st : LocalStore) (d : string) (n : Z) :
  no_own_proto st -> no_own_proto (snd (getCachedResult st d n)).
Proof.
  unfold no_own_proto, getCachedResult. intros H.
  destruct (js_get (cachedResults st) d) as [[c|k]|]; [|exact H|exact H].
  destruct (expiresAt c <? n); [|exact H].
  cbn [snd cachedResults with_cachedResults].
  destruct (String.eq_dec d "__proto__") as [->|Hd].
  - apply lookup_delete_eq.
  - rewrite lookup_delete_ne by congruence. exact H.
Qed.

Lemma analyzeSignals_no_own_proto (w : WorkerState) (rd : AnalyzeReadings) (s : PageSignals)
    (t : Z) :
  no_own_proto (w_local w) -> no_own_proto (w_local (snd (analyzeSignals w rd s t))).
Proof.
  intros H. rewrite analyzeSignals_unfold. apply setCachedResult_no_own_proto, H.
Qed.

(** No handler ever creates an own "__proto__" entry: setCachedResult,
    getCachedResult, generateExplanationAsync, analyzeSignals and the
    ANALYZE_PAGE, GET_CACHED_RESULT and CLEAR_CACHE handlers all keep a
    store without one, and CLEAR_CACHE produces one. *)
Theorem no_own_proto_invariant :
  (forall st c1 c2 d r, no_own_proto st -> no_own_proto (setCachedResult st c1 c2 d r)) /\
  (forall st d n, no_own_proto st -> no_own_proto (snd (getCachedResult st d n))) /\
  (forall st rd r, no_own_proto st -> no_own_proto (generateExplanationAsync st rd r)) /\
  (forall w rd s t, no_own_proto (w_local w) ->
     no_own_proto (w_local (snd (analyzeSignals w rd s t)))) /\
  (forall url_hostname w u t n p rd, no_own_proto (w_local w) ->
     no_own_proto (w_local (snd (handleAnalyzePage url_hostname w u t n p rd)))) /\
  (forall w d n, no_own_proto (w_local w) ->
     no_own_proto (w_local (snd (handleGetCachedResult w d n)))) /\
  (forall w, no_own_proto (w_local (snd (handleClearCache w)))).
Proof.
  split; [exact setCachedResult_no_own_proto|].
  split; [exact getCachedResult_no_own_proto|].
  split.
  { intros st rd r H. unfold generateExplanationAsync.
    pose proof (getCachedResult_no_own_proto st (res_domain r) (ex_lookupNow rd) H) as H'.
    destruct (getCachedResult st (res_domain r) (ex_lookupNow rd)) as [[[c|k]|] st'];
      cbn [snd] in H'; try exact H'.
    destruct (toISOString (ex_generatedAt rd)); [|exact H'].
    apply setCachedResult_no_own_proto, H'. }
  split; [exact analyzeSignals_no_own_proto|].
  split.
  { intros hn w u t n p rd H. unfold handleAnalyzePage.
    pose proof (getCachedResult_no_own_proto _ (getDomainFromUrl hn u) n H) as H'.
    destruct (getCachedResult (w_local w) (getDomainFromUrl hn u) n) as [[[c|k]|] st'];
      cbn [snd] in H'; try exact H'.
    destruct p as [|s|e]; try exact H'.
    pose proof (analyzeSignals_no_own_proto (with_local w st') rd s t H') as Ha.
    destruct (analyzeSignals (with_local w st') rd s t). exact Ha. }
  split.
  { intros w d n H. unfold handleGetCachedResult.
    pose proof (getCachedResult_no_own_proto _ d n H) as H'.
    destruct (getCachedResult (w_local w) d n) as [o st']. exact H'. }
  intros w. reflexivity.
Qed.

Lemma no_own_proto_invariant_witness :
  no_own_proto (setCachedResult example_store 0 0 "example.com" example_result).
Proof.
  apply (proj1 no_own_proto_invariant). reflexivity.
Defined.

(** Caching under "__proto__" persists nothing: the assignment runs the
    prototype setter, so setCachedResult leaves the store as it is. *)
Theorem setCachedResult_proto_noop (st : LocalStore) (c1 c2 : Z) (r : AnalysisResult) :
  no_own_proto st -> setCachedResult st c1 c2 "__proto__" r = st.
Proof.
  unfold no_own_proto, setCachedResult. intros H.
  repeat case_match; try reflexivity.
  unfold js_set. rewrite H. cbn. destruct st; reflexivity.
Qed.

Lemma setCachedResult_proto_noop_witness :
  setCachedResult example_store 0 0 "__proto__" example_result = example_store.
Proof. apply setCachedResult_proto_noop. reflexivity. Defined.

(** ANALYZE_PAGE for a URL whose domain is a name inherited from
    Object.prototype with no own entry is a cache hit on the inherited
    member: it answers `{ result: undefined, fromCache: true }` without
    collecting or analysing, and changes no state; GET_CACHED_RESULT
    answers null there. *)
Theorem inherited_name_cache_hit (url_hostname : string -> option string) (w : WorkerState)
    (u : string) (t n : Z) (p : PromiseState) (rd : AnalyzeReadings) :
  In (getDomainFromUrl url_hostname u) objectPrototypeKeys ->
  cachedResults (w_local w) !! getDomainFromUrl url_hostname u = None ->
  handleAnalyzePage url_hostname w u t n p rd = (Some (ReplyUndefinedResult true), w) /\
  handleGetCachedResult w (getDomainFromUrl url_hostname u) n = (ReplyCached None, w).
Proof.
  intros Hi Hn. apply existsb_eqb_In in Hi.
  unfold handleAnalyzePage, handleGetCachedResult, getCachedResult, js_get.
  rewrite Hn, Hi. unfold with_local. destruct w. split; reflexivity.
Qed.

Lemma inherited_name_cache_hit_witness :
  handleAnalyzePage example_url_hostname example_worker "toString" 5 0 PPending
    example_readings = (Some (ReplyUndefinedResult true), example_worker).
Proof.
  exact (proj1 (inherited_name_cache_hit example_url_hostname example_worker "toString" 5 0
                  PPending example_readings
                  ltac:(vm_compute; tauto) ltac:(reflexivity))).
Defined.

(** Offline queue round trip: adding an item under an id no queued item
    has, then removing that id, gives back the original queue, and the
    reported offlineQueueSize is its length again. *)
Theorem offline_queue_add_remove_roundtrip (b : BgState) (i : string) (now : Z) (s : PageSignals) :
  Forall (fun it => item_id it <> i) (getOfflineQueue b) ->
  let b1 := removeFromOfflineQueue (addToOfflineQueue b i now s) i in
  getOfflineQueue b1 = getOfflineQueue b /\
  offlineQueueSize (extensionStatus b1) = Z.of_nat (length (getOfflineQueue b)) /\
  cachedResults (local b1) = cachedResults (local b) /\ settings (local b1) = settings (local b).
Proof.
  intros Hf. cbv zeta.
  assert (Hq : List.filter (fun it => negb (String.eqb (item_id it) i))
                 (app (getOfflineQueue b) [mkOfflineQueueItem i s now 0]) = getOfflineQueue b).
  { induction (getOfflineQueue b) as [|x q IH]; cbn.
    - rewrite String.eqb_refl. reflexivity.
    - inversion Hf as [|? ? Hx Hq]; subst.
      destruct (String.eqb_spec (item_id x) i); [contradiction|]. cbn.
      rewrite IH by exact Hq. reflexivity. }
  unfold removeFromOfflineQueue, addToOfflineQueue, getOfflineQueue. cbn [local offlineQueue
    with_offlineQueue extensionStatus updateStatus_offlineQueueSize offlineQueueSize].
  unfold getOfflineQueue in Hq. rewrite Hq. repeat split.
Qed.

Lemma offline_queue_add_remove_roundtrip_witness :
  getOfflineQueue (removeFromOfflineQueue
    (addToOfflineQueue (addToOfflineQueue empty_bg "q1" 10 example_signals) "q2" 20 example_signals)
    "q2") = getOfflineQueue (addToOfflineQueue empty_bg "q1" 10 example_signals).
Proof.
  exact (proj1 (offline_queue_add_remove_roundtrip
                  (addToOfflineQueue empty_bg "q1" 10 example_signals) "q2" 20 example_signals
                  ltac:(repeat constructor; cbn; discriminate))).
Defined.

(** SIGNALS_COLLECTED from a tab with a registered waiter resolves that
    waiter's promise with the bundle and unregisters the tab, and the
    later 10-second timer of the same request changes nothing: the
    content script's answer wins over the fallback. *)
Theorem signals_collected_resolves_waiter (url_hostname : string -> option string)
    (st : CollectState) (t : Z) (rid : nat) (s : PageSignals) :
  t <> 0 ->
  pendingSignalCollections st !! t = Some rid ->
  promises st !! rid = Some PPending ->
  let st1 := collect_step url_hostname st (SignalsCollected (Some t) s) in
  pendingSignalCollections st1 !! t = None /\
  promises st1 !! rid = Some (PFulfilled s) /\
  (forall u now, collect_step url_hostname st1 (Timeout rid t u now) = st1).
Proof.
  intros Ht Hp Hr. cbv zeta.
  assert (E : collect_step url_hostname st (SignalsCollected (Some t) s) =
              mkCollectState (delete t (pendingSignalCollections st))
                             (<[rid := PFulfilled s]> (promises st))).
  { cbn. destruct (Z.eqb_spec t 0) as [|_]; [contradiction|]. cbn [negb].
    rewrite Hp. unfold settle. rewrite Hr. reflexivity. }
  rewrite E. cbn [pendingSignalCollections promises].
  split; [apply lookup_delete_eq|]. split; [apply lookup_insert_eq|].
  intros u now. cbn. rewrite lookup_delete_eq. reflexivity.
Qed.

Lemma signals_collected_resolves_waiter_witness :
  promises (collect_step example_url_hostname registered_state
              (SignalsCollected (Some 5) example_signals)) !! 1%nat =
    Some (PFulfilled example_signals).
Proof.
  exact (proj1 (proj2 (signals_collected_resolves_waiter example_url_hostname registered_state
                         5 1 example_signals
                         ltac:(lia) eq_refl eq_refl))).
Defined.

(* ------------------------------------------------------------------ *)
(** * Content script *)

Lemma collectCookies_fold_flags (h p : string) (l : list string) (acc : list CookieInfo) :
  Forall (fun ck => httpOnly ck = false /\ secure ck = String.eqb p "https:") acc ->
  Forall (fun ck => httpOnly ck = false /\ secure ck = String.eqb p "https:")
    (fold_left
       (fun acc pair =>
          let name := match split_char "=" (js_trim pair) with
                      | w :: _ => w
                      | [] => EmptyString
                      end in
          if String.eqb name "" then acc
          else app acc [mkCookieInfo (js_trim name) h (String.eqb p "https:") false])
       l acc).
Proof.
  revert acc. induction l as [|x l IH]; intros acc Hacc; [exact Hacc|].
  cbn [fold_left]. apply IH.
  destruct (String.eqb _ ""); [exact Hacc|].
  apply Forall_app; split; [exact Hacc|]. constructor; [split; reflexivity|constructor].
Qed.

Lemma filter_secure_httpOnly_nil (p : string) (l : list CookieInfo) :
  Forall (fun ck => httpOnly ck = false /\ secure ck = String.eqb p "https:") l ->
  List.filter (fun ck => secure ck && httpOnly ck) l = [].
Proof.
  induction l as [|x l IH]; intros H; [reflexivity|].
  inversion H as [|? ? [Hh _] Ht]; subst. cbn. rewrite Hh, andb_false_r. exact (IH Ht).
Qed.

(** Cookies as the content script reports them: none is ever marked
    httpOnly, each is secure exactly when the page protocol is "https:",
    the third-party estimate lies between 0 and the count, and so the
    cookie category score before the reputation multiplier always lies
    between 76 and 85: the secure-cookie bonus can never apply. *)
Theorem collectCookies_cookieScore (cookieString hostname protocol : string) :
  let c := collectCookies cookieString hostname protocol in
  Forall (fun ck => httpOnly ck = false /\ secure ck = String.eqb protocol "https:")
         (CookieSignal.cookies c) /\
  0 <= CookieSignal.thirdPartyCount c <= CookieSignal.count c /\
  76 <= cookieScore c <= 85.
Proof.
  cbv zeta. unfold collectCookies.
  match goal with
  | |- context [CookieSignal.mk _ _ ?L] => set (cks := L)
  end.
  assert (Hf : Forall (fun ck => httpOnly ck = false /\ secure ck = String.eqb protocol "https:") cks).
  { subst cks. destruct (String.eqb cookieString ""); [constructor|].
    apply collectCookies_fold_flags. constructor. }
  clearbody cks. cbn [CookieSignal.cookies CookieSignal.thirdPartyCount CookieSignal.count].
  set (n := Z.of_nat (length cks)).
  assert (Hn : 0 <= n) by lia.
  assert (Hn' : (0 <= inject_Z n)%Q) by (apply inject_Z_nonneg; exact Hn).
  set (c := fl (3 # 10)).
  assert (Ec : (c == 5404319552844595 # 18014398509481984)%Q) by (vm_compute; reflexivity).
  set (F := fl (inject_Z n * c)).
  set (k := Qfloor F).
  assert (Hq0 : (0 <= inject_Z n * c)%Q)
    by (rewrite Ec; apply Qmult_le_0_compat; [exact Hn'|qcheck]).
  pose proof (fl_upper _ Hq0) as Hup. fold F in Hup.
  assert (E52 : (pow2 (-52) == 1 # 4503599627370496)%Q) by (vm_compute; reflexivity).
  assert (Ee : (0 <= pow2 (-1074) <= 1 # 4503599627370496)%Q) by (split; qcheck).
  rewrite E52, Ec in Hup.
  assert (HF0 : (0 <= F)%Q) by (apply fl_nonneg; exact Hq0).
  pose proof (Qfloor_le F) as Hk1. pose proof (Qlt_floor F) as Hk2. fold k in Hk1, Hk2.
  rewrite inject_Z_plus in Hk2. change (inject_Z 1) with 1%Q in Hk2.
  assert (Hk : (inject_Z k <= inject_Z n * (5404319552844595 # 18014398509481984) *
                  (1 + (1 # 4503599627370496) * (1 # 2)) + (1 # 4503599627370496) * (1 # 2))%Q)
    by lra.
  assert (Hk0 : 0 <= k).
  { assert (Hz : (inject_Z (-1) < inject_Z k)%Q) by (change (inject_Z (-1)) with (-1)%Q; lra).
    rewrite <- Zlt_Qlt in Hz. lia. }
  assert (Hkn : k <= n).
  { assert (Hz : (inject_Z k < inject_Z (n + 1))%Q)
      by (rewrite inject_Z_plus; change (inject_Z 1) with 1%Q; lra).
    rewrite <- Zlt_Qlt in Hz. lia. }
  split; [exact Hf|]. split; [lia|].
  unfold cookieScore. cbn [CookieSignal.cookies CookieSignal.thirdPartyCount CookieSignal.count].
  fold n. rewrite (filter_secure_httpOnly_nil protocol cks Hf). cbn [length].
  destruct (Z.ltb_spec 0 n) as [Hpos|]; [|lia].
  assert (Hnq : (1 <= inject_Z n)%Q)
    by (change 1%Q with (inject_Z 1); rewrite <- Zle_Qle; lia).
  assert (Hr0 : (0 <= inject_Z k / inject_Z n)%Q).
  { apply Qle_shift_div_l; [lra|].
    rewrite Qmult_0_l. apply inject_Z_nonneg. exact Hk0. }
  set (Bq := ((5404319552844595 # 18014398509481984) * (1 + (1 # 4503599627370496) * (1 # 2))
              + (1 # 4503599627370496) * (1 # 2))%Q).
  assert (Hr1 : (inject_Z k / inject_Z n <= Bq)%Q).
  { apply Qle_shift_div_r; [lra|]. unfold Bq. lra. }
  assert (Hround : 0 <= js_round (fl (fl (inject_Z k / inject_Z n) * 30)) <= 9).
  { split.
    - change 0 with (js_round 0). apply js_round_mono.
      apply fl_nonneg, Qmult_le_0_compat; [apply fl_nonneg, Hr0|qcheck].
    - assert (Top : js_round (fl (fl Bq * 30)) = 9) by (vm_compute; reflexivity).
      rewrite <- Top. apply js_round_mono, fl_mult_mono; [qcheck|].
      apply fl_mono, Hr1. }
  assert (Hzero : js_round (fl (fl (inject_Z (Z.of_nat 0) / inject_Z (Z.max n 1)) * 15)) = 0).
  { rewrite (fl_zero (inject_Z (Z.of_nat 0) / inject_Z (Z.max n 1)))
      by (unfold Qdiv; rewrite Qmult_0_l; reflexivity).
    rewrite (fl_zero (0 * 15)) by reflexivity. reflexivity. }
  rewrite Hzero. fold c F k. lia.
Qed.

(** The header report of the content script never earns the
    required-header bonus: its names carry " (meta)".  With a meta tag it
    reaches scoring unchanged and scores exactly 80 before the reputation
    multiplier; without any meta tag it reports no present and no missing
    header, so enhanceSignals always replaces it with simulated headers. *)
Theorem analyzeHeaders_in_scoring (hasCsp hasReferrer : bool) (g : Rng) (now : Z)
    (s : PageSignals) (t : bool) :
  headers s = analyzeHeaders hasCsp hasReferrer ->
  if hasCsp || hasReferrer then
    headers (fst (enhanceSignals g now s t)) = headers s /\
    (headerScore (headers s) == 80)%Q
  else headers (fst (enhanceSignals g now s t)) <> headers s.
Proof.
  intros Hh. unfold enhanceSignals, random. rewrite Hh.
  destruct hasCsp, hasReferrer, t; cbn [orb analyzeHeaders app present missing];
  repeat match goal with
         | |- context [let '(_, _) := ?p in _] => destruct p eqn:?
         end;
  cbn; try (split; [reflexivity|reflexivity]); discriminate.
Qed.

Lemma analyzeHeaders_in_scoring_witness :
  (headerScore (headers (fst (enhanceSignals (Streams.const 0%Q) 0
     (mkPageSignals "https://a.org/" "a.org" 0 (CookieSignal.mk 0 0 [])
        (mkTrackerSignal [] 0 []) (mkFingerprintSignal [] low) (analyzeHeaders true false)
        (mkSSLSignal true None None None)) false))) == 80)%Q.
Proof.
  destruct (analyzeHeaders_in_scoring true false (Streams.const 0%Q) 0
     (mkPageSignals "https://a.org/" "a.org" 0 (CookieSignal.mk 0 0 [])
        (mkTrackerSignal [] 0 []) (mkFingerprintSignal [] low) (analyzeHeaders true false)
        (mkSSLSignal true None None None)) false eq_refl) as [E H].
  rewrite E. exact H.
Defined.

(** The fingerprinting report of the content script: at most the four
    techniques, risk 'high' only from three on, so the fingerprinting score
    before the multiplier is 95, 70, 65, 40 or 35 for 0 to 4 techniques. *)
Theorem detectFingerprinting_score (hasCanvas webglDebugInfo : bool) (scriptTexts : list string) :
  let f := detectFingerprinting hasCanvas webglDebugInfo scriptTexts in
  (length (techniques f) <= 4)%nat /\
  fingerprintScore f = nth (length (techniques f)) [95; 70; 65; 40; 35] 0.
Proof.
  unfold detectFingerprinting. cbv zeta.
  generalize (webglDebugInfo && existsb (fun c => includes c "WEBGL_debug_renderer_info") scriptTexts)
    as webgl.
  generalize (existsb (fun c => includes c "AudioContext" && includes c "createOscillator")
                      scriptTexts) as audio.
  generalize (existsb (fun c => includes c "measureText" && includes c "font") scriptTexts)
    as fonts.
  intros fonts audio webgl.
  destruct hasCanvas, webgl, audio, fonts; cbn; split; first [lia | reflexivity].
Qed.

Lemma NoDup_snoc {A} (l : list A) (x : A) : List.NoDup l -> ~ In x l -> List.NoDup (app l [x]).
Proof.
  induction l as [|y l IH]; intros Hl Hx; cbn.
  - constructor; [intros []|constructor].
  - inversion Hl as [|? ? Hy Hl']; subst. constructor.
    + intros Hin. apply in_app_or in Hin as [Hin|[<-|[]]]; [contradiction|].
      apply Hx. left. reflexivity.
    + apply IH; [exact Hl'|]. intros Hin. apply Hx. right. exact Hin.
Qed.

Lemma addMatches_fold_inv (test : string -> string -> bool) (text : string)
    (names : list string) (det : list string) :
  List.NoDup det -> incl det trackerNames -> incl names trackerNames ->
  let det' := fold_left (fun det nm =>
                if test nm text && negb (existsb (String.eqb nm) det)
                then app det [nm] else det) names det in
  List.NoDup det' /\ incl det' trackerNames.
Proof.
  revert det. induction names as [|nm names IH]; intros det Hd Hi Hn; [split; assumption|].
  cbn zeta. cbn [fold_left]. apply IH; [| |intros x Hx; apply Hn; right; exact Hx].
  - destruct (test nm text && negb (existsb (String.eqb nm) det)) eqn:E; [|exact Hd].
    apply andb_prop in E as [_ E]. apply NoDup_snoc; [exact Hd|].
    intros Hin. apply Bool.negb_true_iff in E. rewrite <- Bool.not_true_iff_false in E.
    apply E, List.existsb_exists. exists nm. split; [exact Hin|apply String.eqb_refl].
  - destruct (test nm text && negb (existsb (String.eqb nm) det)); [|exact Hi].
    intros x Hx. apply in_app_or in Hx as [Hx|[<-|[]]]; [apply Hi, Hx|apply Hn; left; reflexivity].
Qed.

Lemma addMatches_inv (test : string -> string -> bool) (det : list string) (text : string) :
  List.NoDup det /\ incl det trackerNames ->
  List.NoDup (addMatches test det text) /\ incl (addMatches test det text) trackerNames.
Proof.
  intros [Hd Hi]. unfold addMatches.
  exact (addMatches_fold_inv test text trackerNames det Hd Hi (incl_refl _)).
Qed.

Lemma fold_addMatches_inv {B} (f : list string -> B -> list string) (l : list B)
    (det : list string) :
  (forall d x, List.NoDup d /\ incl d trackerNames -> List.NoDup (f d x) /\ incl (f d x) trackerNames) ->
  List.NoDup det /\ incl det trackerNames ->
  List.NoDup (fold_left f l det) /\ incl (fold_left f l det) trackerNames.
Proof.
  revert det. induction l as [|x l IH]; intros det Hf H; [exact H|].
  cbn. apply IH; [exact Hf|]. apply Hf, H.
Qed.

(** detectTrackers, whatever the tracker patterns match: no tracker is
    ever reported twice, however many scripts, inline scripts or images
    match it, every reported name is one of the listed trackers, at most
    20 script URLs are kept and nothing is counted as blocked. *)
Theorem detectTrackers_no_duplicates (patternTest : string -> string -> bool)
    (scriptSrcs inlineTexts : list string) (images : list ImgInfo) :
  let t := detectTrackers patternTest scriptSrcs inlineTexts images in
  List.NoDup (detected t) /\ incl (detected t) trackerNames /\
  (length (scripts t) <= 20)%nat /\ blocked t = 0.
Proof.
  cbv zeta. unfold detectTrackers. cbn [detected scripts blocked].
  assert (H0 : List.NoDup (@nil string) /\ incl [] trackerNames)
    by (split; [constructor|intros x []]).
  assert (H : List.NoDup (fold_left (fun det img =>
                 let w := js_or_num (img_width img) (img_naturalWidth img) in
                 let h := js_or_num (img_height img) (img_naturalHeight img) in
                 if ((w <=? 1) && (h <=? 1)) || includes (img_src img) "/pixel"
                    || includes (img_src img) "/beacon"
                 then addMatches patternTest det (img_src img) else det)
              images (fold_left (addMatches patternTest) inlineTexts
                        (fold_left (addMatches patternTest) scriptSrcs []))) /\
              incl (fold_left (fun det img =>
                 let w := js_or_num (img_width img) (img_naturalWidth img) in
                 let h := js_or_num (img_height img) (img_naturalHeight img) in
                 if ((w <=? 1) && (h <=? 1)) || includes (img_src img) "/pixel"
                    || includes (img_src img) "/beacon"
                 then addMatches patternTest det (img_src img) else det)
              images (fold_left (addMatches patternTest) inlineTexts
                        (fold_left (addMatches patternTest) scriptSrcs []))) trackerNames).
  { apply fold_addMatches_inv.
    - intros d img Hd. cbv zeta. destruct (_ || _); [apply addMatches_inv, Hd|exact Hd].
    - apply fold_addMatches_inv; [intros d x; apply addMatches_inv|].
      apply fold_addMatches_inv; [intros d x; apply addMatches_inv|exact H0]. }
  destruct H as [Hn Hi]. split; [exact Hn|]. split; [exact Hi|]. split; [|reflexivity].
  unfold slice0. cbn. apply firstn_le_length.
Qed.

Lemma enhanceSignals_keeps_collected_witness :
  cookies (fst (enhanceSignals (Streams.const 0%Q) 0 detected_signals false)) =
    cookies detected_signals /\
  trackers (fst (enhanceSignals (Streams.const 0%Q) 0 detected_signals false)) =
    trackers detected_signals.
Proof.
  pose proof (enhanceSignals_keeps_collected (Streams.const 0%Q) 0 detected_signals false) as H.
  cbv zeta in H. destruct H as (_ & _ & _ & Hc & _ & Ht & _).
  split; [exact Hc|]. apply Ht. discriminate.
Defined.
